(** * Link shelf: a verified model of [src/index.tsx]

    The program is a browser page script: a list of bookmarks ([links]) kept in
    memory and mirrored into [localStorage], rendered as cards, filtered by a
    search box, with a theme switcher.  The development follows the source file
    top to bottom: strings, the [Link] record, JSON, the page state, rendering,
    the event handlers and the theme functions; the properties come last.

    Strings are [string]s whose characters stand for UTF-16 code units below
    256 (Latin-1); on that alphabet [trim], [toLowerCase], [startsWith] and
    [includes] below are the ECMAScript functions of the same names. *)

From Stdlib Require Import Ascii String List ZArith Lia Bool.
From stdpp Require Import base decidable option list strings pretty gmap.

Local Open Scope string_scope.
Local Open Scope list_scope.
Set Warnings "-register-all".

(** ** ECMAScript string functions used by the page *)

(** WhiteSpace and LineTerminator code units below 256: TAB, LF, VT, FF, CR,
    SP and NBSP. *)
Definition isWhiteSpace (c : ascii) : bool :=
  match N_of_ascii c with
  | 9 | 10 | 11 | 12 | 13 | 32 | 160 => true
  | _ => false
  end%N.

Fixpoint trimStart (s : string) : string :=
  match s with
  | EmptyString => EmptyString
  | String c s' => if isWhiteSpace c then trimStart s' else s
  end.

Fixpoint trimEnd (s : string) : string :=
  match s with
  | EmptyString => EmptyString
  | String c s' =>
      match trimEnd s' with
      | EmptyString => if isWhiteSpace c then EmptyString else String c EmptyString
      | t => String c t
      end
  end.

(** [String.prototype.trim] *)
Definition trim (s : string) : string := trimEnd (trimStart s).

(** Lower-case mapping of one code unit: A-Z, and the Latin-1 capitals
    U+00C0..U+00DE except the multiplication sign U+00D7. *)
Definition toLowerCase_unit (c : ascii) : ascii :=
  let n := N_of_ascii c in
  if ((65 <=? n) && (n <=? 90) || (192 <=? n) && (n <=? 222) && negb (n =? 215))%N
  then ascii_of_N (n + 32)
  else c.

(** [String.prototype.toLowerCase] *)
Fixpoint toLowerCase (s : string) : string :=
  match s with
  | EmptyString => EmptyString
  | String c s' => String (toLowerCase_unit c) (toLowerCase s')
  end.

(** [s.startsWith(search)] *)
Fixpoint startsWith (s search : string) : bool :=
  match search, s with
  | EmptyString, _ => true
  | String _ _, EmptyString => false
  | String b search', String a s' => Ascii.eqb a b && startsWith s' search'
  end.

(** [s.includes(search)] *)
Fixpoint includes (s search : string) : bool :=
  startsWith s search ||
  match s with
  | EmptyString => false
  | String _ s' => includes s' search
  end.

(** Truthiness of a string value: every string but the empty one. *)
Definition truthy (s : string) : bool :=
  match s with EmptyString => false | String _ _ => true end.

(** ** The [Link] interface *)

Record Link := { id : string; name : string; url : string }.

#[global] Instance Link_eq_dec : EqDecision Link.
Proof. solve_decision. Defined.

(** ** JSON, as [JSON.stringify] and [JSON.parse] treat an array of links *)

Module JSON.

Inductive value :=
| Null
| Bool (b : bool)
| Number (lexeme : string)
| Str (s : string)
| Array (elements : list value)
| Object (members : list (string * value)).

Definition dquote : ascii := "034"%char.
Definition backslash : ascii := "092"%char.

Definition hex_digit (n : N) : ascii :=
  match n with
  | 0 => "0" | 1 => "1" | 2 => "2" | 3 => "3" | 4 => "4" | 5 => "5" | 6 => "6"
  | 7 => "7" | 8 => "8" | 9 => "9" | 10 => "a" | 11 => "b" | 12 => "c"
  | 13 => "d" | 14 => "e" | _ => "f"
  end%N%char.

(** QuoteJSONString, one code unit: the short escapes, [\u00xx] for the other
    control characters, the unit itself otherwise. *)
Definition quote_unit (c : ascii) : string :=
  let n := N_of_ascii c in
  match n with
  | 8 => String backslash "b"
  | 9 => String backslash "t"
  | 10 => String backslash "n"
  | 12 => String backslash "f"
  | 13 => String backslash "r"
  | 34 => String backslash (String dquote EmptyString)
  | 92 => String backslash (String backslash EmptyString)
  | _ =>
      if (n <? 32)%N
      then String backslash
             (String "u" (String "0" (String "0"
               (String (hex_digit (n / 16)) (String (hex_digit (n mod 16)) EmptyString)))))
      else String c EmptyString
  end%N.

Fixpoint quote_units (s : string) : string :=
  match s with
  | EmptyString => EmptyString
  | String c s' => quote_unit c +:+ quote_units s'
  end.

Definition quote (s : string) : string :=
  String dquote (quote_units s +:+ String dquote EmptyString).

(** [join sep [a; b; c] = a sep b sep c] *)
Fixpoint join (sep : string) (l : list string) : string :=
  match l with
  | [] => EmptyString
  | [a] => a
  | a :: l' => a +:+ sep +:+ join sep l'
  end.

(** [JSON.stringify] without indentation. *)
Fixpoint stringify (v : value) : string :=
  match v with
  | Null => "null"
  | Bool true => "true"
  | Bool false => "false"
  | Number lexeme => lexeme
  | Str s => quote s
  | Array elements => "[" +:+ join "," (map stringify elements) +:+ "]"
  | Object members =>
      "{" +:+ join "," (map (fun m => quote (fst m) +:+ ":" +:+ stringify (snd m)) members)
          +:+ "}"
  end.

(** *** Parsing *)

(** JSON white space: TAB, LF, CR, SP. *)
Definition is_ws (c : ascii) : bool :=
  match N_of_ascii c with
  | 9 | 10 | 13 | 32 => true
  | _ => false
  end%N.

Fixpoint skip_ws (s : string) : string :=
  match s with
  | EmptyString => EmptyString
  | String c s' => if is_ws c then skip_ws s' else s
  end.

Definition hex_value (c : ascii) : option N :=
  let n := N_of_ascii c in
  if ((48 <=? n) && (n <=? 57))%N then Some (n - 48)%N
  else if ((97 <=? n) && (n <=? 102))%N then Some (n - 87)%N
  else if ((65 <=? n) && (n <=? 70))%N then Some (n - 55)%N
  else None.

(** The code unit written [\uh1h2h3h4]; units from 256 on are outside the
    alphabet of this model. *)
Definition hex4 (h1 h2 h3 h4 : ascii) : option ascii :=
  match hex_value h1, hex_value h2, hex_value h3, hex_value h4 with
  | Some a, Some b, Some c, Some d =>
      if ((a =? 0) && (b =? 0))%N then Some (ascii_of_N (16 * c + d)) else None
  | _, _, _, _ => None
  end.

Definition push (c : ascii) (r : option (string * string)) : option (string * string) :=
  match r with
  | Some (s, rest) => Some (String c s, rest)
  | None => None
  end.

(** The characters of a JSON string up to its closing quote; the result is the
    string denoted and the text after the quote. *)
Fixpoint parse_chars (s : string) : option (string * string) :=
  match s with
  | EmptyString => None
  | String c s' =>
      if Ascii.eqb c dquote then Some (EmptyString, s')
      else if Ascii.eqb c backslash then
        match s' with
        | String e s'' =>
            match N_of_ascii e with
            | 34 => push dquote (parse_chars s'')
            | 92 => push backslash (parse_chars s'')
            | 47 => push "/" (parse_chars s'')
            | 98 => push "008" (parse_chars s'')
            | 102 => push "012" (parse_chars s'')
            | 110 => push "010" (parse_chars s'')
            | 114 => push "013" (parse_chars s'')
            | 116 => push "009" (parse_chars s'')
            | 117 =>
                match s'' with
                | String h1 (String h2 (String h3 (String h4 r))) =>
                    match hex4 h1 h2 h3 h4 with
                    | Some u => push u (parse_chars r)
                    | None => None
                    end
                | _ => None
                end
            | _ => None
            end%N
        | EmptyString => None
        end
      else if (N_of_ascii c <? 32)%N then None
      else push c (parse_chars s')
  end%char.

Definition is_digit (c : ascii) : bool :=
  let n := N_of_ascii c in ((48 <=? n) && (n <=? 57))%N.

(** The longest run of digits at the head of the text. *)
Fixpoint digits (s : string) : string * string :=
  match s with
  | String c s' =>
      if is_digit c then let (d, rest) := digits s' in (String c d, rest)
      else (EmptyString, s)
  | EmptyString => (EmptyString, EmptyString)
  end.

(** [-? int frac? exp?], kept as its lexeme. *)
Definition parse_sign (s : string) : string * string :=
  match s with
  | String c r => if Ascii.eqb c "-" then ("-", r) else (EmptyString, s)
  | EmptyString => (EmptyString, s)
  end.

Definition parse_frac (s : string) : option (string * string) :=
  match s with
  | String c r =>
      if Ascii.eqb c "." then
        let (f, rest) := digits r in
        match f with
        | EmptyString => None
        | String _ _ => Some (String c f, rest)
        end
      else Some (EmptyString, s)
  | EmptyString => Some (EmptyString, s)
  end.

Definition parse_exp (s : string) : option (string * string) :=
  match s with
  | String e r =>
      if Ascii.eqb e "e" || Ascii.eqb e "E" then
        let (sg, r1) :=
          match r with
          | String c r' =>
              if Ascii.eqb c "+" || Ascii.eqb c "-" then (String c EmptyString, r')
              else (EmptyString, r)
          | EmptyString => (EmptyString, r)
          end in
        let (x, rest) := digits r1 in
        match x with
        | EmptyString => None
        | String _ _ => Some (String e (sg +:+ x), rest)
        end
      else Some (EmptyString, s)
  | EmptyString => Some (EmptyString, s)
  end.

Definition parse_number (s : string) : option (string * string) :=
  let (sign, s1) := parse_sign s in
  let (int, s2) := digits s1 in
  match int with
  | EmptyString => None
  | String d more =>
      if Ascii.eqb d "0" && truthy more then None
      else
        match parse_frac s2 with
        | None => None
        | Some (f, s3) =>
            match parse_exp s3 with
            | None => None
            | Some (x, s4) => Some (sign +:+ int +:+ f +:+ x, s4)
            end
        end
  end.

(** The text after the literal [lit], when the text starts with it. *)
Fixpoint literal (lit s : string) : option string :=
  match lit, s with
  | EmptyString, _ => Some s
  | String _ _, EmptyString => None
  | String a lit', String b s' => if Ascii.eqb a b then literal lit' s' else None
  end.

Section Loops.
Variable parse_value : string -> option (value * string).

(** The elements of an array after the first white space, up to and including
    the closing bracket; [n] bounds their number. *)
Fixpoint parse_elements (n : nat) (s : string) : option (list value * string) :=
  match n with
  | O => None
  | S n' =>
      match parse_value s with
      | None => None
      | Some (v, s1) =>
          match skip_ws s1 with
          | String "," s2 =>
              match parse_elements n' (skip_ws s2) with
              | Some (vs, s3) => Some (v :: vs, s3)
              | None => None
              end
          | String "]" s2 => Some ([v], s2)
          | _ => None
          end%char
      end
  end.

(** The members of an object, up to and including the closing brace. *)
Fixpoint parse_members (n : nat) (s : string) : option (list (string * value) * string) :=
  match n with
  | O => None
  | S n' =>
      match s with
      | String q s0 =>
          if Ascii.eqb q dquote then
            match parse_chars s0 with
            | None => None
            | Some (k, s1) =>
                match skip_ws s1 with
                | String ":" s2 =>
                    match parse_value (skip_ws s2) with
                    | None => None
                    | Some (v, s3) =>
                        match skip_ws s3 with
                        | String "," s4 =>
                            match parse_members n' (skip_ws s4) with
                            | Some (ms, s5) => Some ((k, v) :: ms, s5)
                            | None => None
                            end
                        | String "}" s4 => Some ([(k, v)], s4)
                        | _ => None
                        end%char
                    end
                | _ => None
                end%char
            end
          else None
      | EmptyString => None
      end
  end.

End Loops.

(** One JSON value at the head of the text (no leading white space); [fuel]
    bounds the nesting depth and the length of each array and object. *)
Fixpoint parse_value (fuel : nat) (s : string) : option (value * string) :=
  match fuel with
  | O => None
  | S fuel' =>
      match s with
      | EmptyString => None
      | String c s1 =>
          if Ascii.eqb c dquote then
            match parse_chars s1 with
            | Some (str, rest) => Some (Str str, rest)
            | None => None
            end
          else if Ascii.eqb c "[" then
            match skip_ws s1 with
            | String "]" s2 => Some (Array [], s2)
            | s2 =>
                match parse_elements (parse_value fuel') fuel' s2 with
                | Some (vs, rest) => Some (Array vs, rest)
                | None => None
                end
            end%char
          else if Ascii.eqb c "{" then
            match skip_ws s1 with
            | String "}" s2 => Some (Object [], s2)
            | s2 =>
                match parse_members (parse_value fuel') fuel' s2 with
                | Some (ms, rest) => Some (Object ms, rest)
                | None => None
                end
            end%char
          else
            match literal "null" s, literal "true" s, literal "false" s with
            | Some rest, _, _ => Some (Null, rest)
            | None, Some rest, _ => Some (Bool true, rest)
            | None, None, Some rest => Some (Bool false, rest)
            | None, None, None =>
                match parse_number s with
                | Some (lexeme, rest) => Some (Number lexeme, rest)
                | None => None
                end
            end
      end%char
  end.

(** [JSON.parse]: [None] stands for the SyntaxError it throws. *)
Definition parse (text : string) : option value :=
  match parse_value (S (String.length text)) (skip_ws text) with
  | Some (v, rest) =>
      match skip_ws rest with
      | EmptyString => Some v
      | String _ _ => None
      end
  | None => None
  end.

End JSON.

(** The object graph of a [Link[]] as a JSON value: each record is an object
    with the own properties [id], [name], [url], in creation order. *)
Definition value_of_link (l : Link) : JSON.value :=
  JSON.Object [("id", JSON.Str (id l)); ("name", JSON.Str (name l)); ("url", JSON.Str (url l))].

Definition value_of_links (ls : list Link) : JSON.value :=
  JSON.Array (map value_of_link ls).

(** The parsed value read back at the type [Link[]] the source declares for
    it; [None] for a value that is not such an array. *)
Definition link_of_value (v : JSON.value) : option Link :=
  match v with
  | JSON.Object [(k1, JSON.Str a); (k2, JSON.Str b); (k3, JSON.Str c)] =>
      if bool_decide (k1 = "id" /\ k2 = "name" /\ k3 = "url")
      then Some {| id := a; name := b; url := c |}
      else None
  | _ => None
  end.

Definition links_of_value (v : JSON.value) : option (list Link) :=
  match v with
  | JSON.Array vs => mapM link_of_value vs
  | _ => None
  end.

(** ** The page: module state, storage and the parts of the document the
    script reads and writes *)

(** A card built by [createLinkCard]. *)
Record Card := {
  className : string;
  backgroundColor : string;
  dataset_id : string;
  href : string;
  target : string;
  rel : string;
  favicon_src : string;
  linkName_textContent : string;
  deleteBtn_aria_label : string
}.

(** The links container: the markup last assigned to its [innerHTML], which
    the browser parses as HTML, and the cards appended since. *)
Record Container := { innerHTML : string; children : list Card }.

(** A [.theme-btn] button of the theme switcher. *)
Record ThemeBtn := {
  dataset_theme : option string;
  classList : list string;
  aria_checked : option string
}.

Record World := {
  links : list Link;
  CARD_COLORS : list string;
  localStorage : gmap string string;
  linksContainer : Container;
  linkNameInput : string;
  linkUrlInput : string;
  searchInput : string;
  activeElement : option string;
  body_classList : list string;
  themeButtons : list ThemeBtn;
  alerts : list string;
  clock : Z
}.

Definition set_links (v : list Link) (w : World) : World :=
  {| links := v; CARD_COLORS := CARD_COLORS w; localStorage := localStorage w;
     linksContainer := linksContainer w; linkNameInput := linkNameInput w;
     linkUrlInput := linkUrlInput w; searchInput := searchInput w;
     activeElement := activeElement w; body_classList := body_classList w;
     themeButtons := themeButtons w; alerts := alerts w; clock := clock w |}.

Definition set_localStorage (v : gmap string string) (w : World) : World :=
  {| links := links w; CARD_COLORS := CARD_COLORS w; localStorage := v;
     linksContainer := linksContainer w; linkNameInput := linkNameInput w;
     linkUrlInput := linkUrlInput w; searchInput := searchInput w;
     activeElement := activeElement w; body_classList := body_classList w;
     themeButtons := themeButtons w; alerts := alerts w; clock := clock w |}.

Definition set_linksContainer (v : Container) (w : World) : World :=
  {| links := links w; CARD_COLORS := CARD_COLORS w; localStorage := localStorage w;
     linksContainer := v; linkNameInput := linkNameInput w;
     linkUrlInput := linkUrlInput w; searchInput := searchInput w;
     activeElement := activeElement w; body_classList := body_classList w;
     themeButtons := themeButtons w; alerts := alerts w; clock := clock w |}.

Definition set_form (nameValue urlValue : string) (w : World) : World :=
  {| links := links w; CARD_COLORS := CARD_COLORS w; localStorage := localStorage w;
     linksContainer := linksContainer w; linkNameInput := nameValue;
     linkUrlInput := urlValue; searchInput := searchInput w;
     activeElement := activeElement w; body_classList := body_classList w;
     themeButtons := themeButtons w; alerts := alerts w; clock := clock w |}.

Definition set_activeElement (v : option string) (w : World) : World :=
  {| links := links w; CARD_COLORS := CARD_COLORS w; localStorage := localStorage w;
     linksContainer := linksContainer w; linkNameInput := linkNameInput w;
     linkUrlInput := linkUrlInput w; searchInput := searchInput w;
     activeElement := v; body_classList := body_classList w;
     themeButtons := themeButtons w; alerts := alerts w; clock := clock w |}.

Definition set_body_classList (v : list string) (w : World) : World :=
  {| links := links w; CARD_COLORS := CARD_COLORS w; localStorage := localStorage w;
     linksContainer := linksContainer w; linkNameInput := linkNameInput w;
     linkUrlInput := linkUrlInput w; searchInput := searchInput w;
     activeElement := activeElement w; body_classList := v;
     themeButtons := themeButtons w; alerts := alerts w; clock := clock w |}.

Definition set_themeButtons (v : list ThemeBtn) (w : World) : World :=
  {| links := links w; CARD_COLORS := CARD_COLORS w; localStorage := localStorage w;
     linksContainer := linksContainer w; linkNameInput := linkNameInput w;
     linkUrlInput := linkUrlInput w; searchInput := searchInput w;
     activeElement := activeElement w; body_classList := body_classList w;
     themeButtons := v; alerts := alerts w; clock := clock w |}.

Definition set_alerts (v : list string) (w : World) : World :=
  {| links := links w; CARD_COLORS := CARD_COLORS w; localStorage := localStorage w;
     linksContainer := linksContainer w; linkNameInput := linkNameInput w;
     linkUrlInput := linkUrlInput w; searchInput := searchInput w;
     activeElement := activeElement w; body_classList := body_classList w;
     themeButtons := themeButtons w; alerts := v; clock := clock w |}.

(** ** Scripts: state passing with exceptions

    A script runs on a world and completes normally with a value or abruptly
    with an exception; either way the world keeps what was written before. *)

(** [TypeError] is what the [URL] constructor throws and [SyntaxError] what
    [JSON.parse] throws.  [NotLinkArray] marks the point where the stored text
    parses to a value outside the type [Link[]] that the source declares for
    [links]: the script does not check the value, and the model stops there. *)
Inductive exn := TypeError | SyntaxError | NotLinkArray.

Inductive completion (A : Type) :=
| Normal (a : A)
| Throw (e : exn).
Arguments Normal {A} a.
Arguments Throw {A} e.

Definition Script (A : Type) : Type := World -> completion A * World.

#[global] Instance Script_ret : MRet Script := fun A a w => (Normal a, w).

#[global] Instance Script_bind : MBind Script := fun A B f m w =>
  match m w with
  | (Normal a, w') => f a w'
  | (Throw e, w') => (Throw e, w')
  end.

Definition read {A} (field : World -> A) : Script A := fun w => (Normal (field w), w).
Definition write (f : World -> World) : Script unit := fun w => (Normal tt, f w).
Definition throw {A} (e : exn) : Script A := fun w => (Throw e, w).

(** The world a script leaves behind. *)
Definition exec {A} (m : Script A) (w : World) : World := snd (m w).

(** [array.forEach((x, index) => ...)] *)
Fixpoint forEach {A} (f : A -> nat -> Script unit) (l : list A) (index : nat) : Script unit :=
  match l with
  | [] => mret tt
  | x :: l' => f x index ;; forEach f l' (S index)
  end.

(** [DOMTokenList]: [remove], [add], [contains] and [toggle] with a forced
    state. *)
Definition classList_remove (tokens : list string) (l : list string) : list string :=
  filter (fun c => c ∉ tokens) l.

Definition classList_add (token : string) (l : list string) : list string :=
  if bool_decide (token ∈ l) then l else l ++ [token].

Definition classList_contains (token : string) (l : list string) : bool :=
  bool_decide (token ∈ l).

Definition classList_toggle (token : string) (force : bool) (l : list string) : list string :=
  if force then classList_add token l else classList_remove [token] l.

Definition set_searchInput (v : string) (w : World) : World :=
  {| links := links w; CARD_COLORS := CARD_COLORS w; localStorage := localStorage w;
     linksContainer := linksContainer w; linkNameInput := linkNameInput w;
     linkUrlInput := linkUrlInput w; searchInput := v;
     activeElement := activeElement w; body_classList := body_classList w;
     themeButtons := themeButtons w; alerts := alerts w; clock := clock w |}.

Definition set_clock (v : Z) (w : World) : World :=
  {| links := links w; CARD_COLORS := CARD_COLORS w; localStorage := localStorage w;
     linksContainer := linksContainer w; linkNameInput := linkNameInput w;
     linkUrlInput := linkUrlInput w; searchInput := searchInput w;
     activeElement := activeElement w; body_classList := body_classList w;
     themeButtons := themeButtons w; alerts := alerts w; clock := v |}.

Definition set_CARD_COLORS (v : list string) (w : World) : World :=
  {| links := links w; CARD_COLORS := v; localStorage := localStorage w;
     linksContainer := linksContainer w; linkNameInput := linkNameInput w;
     linkUrlInput := linkUrlInput w; searchInput := searchInput w;
     activeElement := activeElement w; body_classList := body_classList w;
     themeButtons := themeButtons w; alerts := alerts w; clock := clock w |}.

(** What a click handler reads of its event: the class list of the target,
    the closest [.link-card] ancestor (its [data-id] and the text of its
    [.link-name] element, when present), and the [data-theme] of the closest
    [.theme-btn] ancestor. *)
Record CardElement := {
  card_dataset_id : option string;
  card_link_name : option string
}.

Record ClickEvent := {
  target_classList : list string;
  closest_link_card : option CardElement;
  closest_theme_btn : option (option string)
}.

(** The double quote, for the texts that contain one. *)
Definition dq : string := String JSON.dquote EmptyString.

(** ** The script *)

Section Page.

(** [new URL(u).hostname]; [None] when the [URL] constructor throws its
    TypeError, that is, when [u] does not parse as an absolute URL. *)
Variable URL_hostname : string -> option string.

(** [window.confirm]: the user's answer to a prompt. *)
Variable confirm : string -> bool.

(** *** State management *)

Definition loadLinksFromStorage : Script unit :=
  storedLinks ← read (fun w => localStorage w !! "savedLinks");
  match storedLinks with
  | Some text =>
      if truthy text then
        match JSON.parse text with
        | None => throw SyntaxError
        | Some v =>
            match links_of_value v with
            | Some ls => write (set_links ls)
            | None => throw NotLinkArray
            end
        end
      else mret tt
  | None => mret tt
  end.

Definition saveLinksToStorage (linksToSave : list Link) : Script unit :=
  write (fun w =>
    set_localStorage
      (<["savedLinks" := JSON.stringify (value_of_links linksToSave)]> (localStorage w)) w).

(** [[array[i], array[j]] = [array[j], array[i]]] *)
Definition swap (i j : nat) (array : list string) : list string :=
  match array !! i, array !! j with
  | Some x, Some y => <[j := x]> (<[i := y]> array)
  | _, _ => array
  end.

(** The loop of [shuffleArray] from index [i] down to 1; [draw i] is the index
    [Math.floor(Math.random() * (i + 1))] drawn at step [i]. *)
Fixpoint shuffle_from (draw : nat -> nat) (i : nat) (array : list string) : list string :=
  match i with
  | O => array
  | S i' => shuffle_from draw i' (swap i (draw i) array)
  end.

Definition shuffleArray (draw : nat -> nat) (array : list string) : list string :=
  shuffle_from draw (length array - 1) array.

(** *** Rendering *)

(** The filter of [renderLinks]. *)
Definition filteredLinks (links : list Link) (searchTerm : string) : list Link :=
  let lowerCaseSearchTerm := toLowerCase (trim searchTerm) in
  if truthy lowerCaseSearchTerm
  then List.filter (fun link => includes (toLowerCase (name link)) lowerCaseSearchTerm) links
  else links.

Definition empty_shelf_markup : string :=
  "<p class=" +:+ dq +:+ "empty-message" +:+ dq +:+
  ">Your shelf is empty. Add a link to get started!</p>".

Definition no_results_markup (searchTerm : string) : string :=
  "<p class=" +:+ dq +:+ "empty-message" +:+ dq +:+
  ">No links found matching " +:+ dq +:+ searchTerm +:+ dq +:+ ".</p>".

(** The favicon's [onerror] fallback chain is not modelled: a card carries the
    first image source only. *)
Definition createLinkCard (link : Link) (index : nat) : Script Card :=
  colors ← read CARD_COLORS;
  match URL_hostname (url link) with
  | None => throw TypeError
  | Some domain =>
      mret {| className := "link-card";
              backgroundColor := default "" (colors !! (index mod length colors));
              dataset_id := id link;
              href := url link;
              target := "_blank";
              rel := "noopener noreferrer";
              favicon_src := "https://www.google.com/s2/favicons?sz=64&domain_url=" +:+ domain;
              linkName_textContent := name link;
              deleteBtn_aria_label := "Delete " +:+ name link |}
  end.

Definition set_innerHTML (markup : string) : Script unit :=
  write (set_linksContainer {| innerHTML := markup; children := [] |}).

Definition appendChild (card : Card) : Script unit :=
  write (fun w =>
    set_linksContainer
      {| innerHTML := innerHTML (linksContainer w);
         children := children (linksContainer w) ++ [card] |} w).

Definition renderLinks (searchTerm : string) : Script unit :=
  set_innerHTML "" ;;
  ls ← read links;
  let filtered := filteredLinks ls searchTerm in
  if (length filtered =? 0)%nat then
    if (length ls =? 0)%nat
    then set_innerHTML empty_shelf_markup
    else set_innerHTML (no_results_markup searchTerm)
  else
    forEach (fun link index => card ← createLinkCard link index; appendChild card)
            filtered 0.

(** *** Event handlers *)

Definition alert (message : string) : Script unit :=
  write (fun w => set_alerts (alerts w ++ [message]) w).

(** The URL normalisation of [handleAddLink]. *)
Definition with_scheme (url : string) : string :=
  if negb (startsWith url "http://") && negb (startsWith url "https://")
  then "https://" +:+ url
  else url.

(** The handler of the form's submit event.  [e.preventDefault()] touches the
    event only.  [Date.now()] reads the clock, an integer number of
    milliseconds, which the template literal prints in decimal.  [form.reset()]
    empties the two fields of the form (they carry no default value);
    [linkNameInput.focus()] moves the focus. *)
Definition handleAddLink : Script unit :=
  nameValue ← read linkNameInput;
  urlValue ← read linkUrlInput;
  let name := trim nameValue in
  let url := trim urlValue in
  if negb (truthy name) || negb (truthy url) then mret tt
  else
    let url := with_scheme url in
    match URL_hostname url with
    | None => alert "Please enter a valid URL."
    | Some _ =>
        now ← read clock;
        let newLink := {| id := "link-" +:+ pretty now; name := name; url := url |} in
        write (fun w => set_links (newLink :: links w) w) ;;
        ls ← read links;
        saveLinksToStorage ls ;;
        term ← read searchInput;
        renderLinks term ;;
        write (set_form "" "") ;;
        write (set_activeElement (Some "link-name"))
    end.

(** The id and the display name the click designates for deletion: the target
    is a [.delete-btn], it has a [.link-card] ancestor, and the card's
    [data-id] is truthy. *)
Definition delete_request (e : ClickEvent) : option (string * string) :=
  if classList_contains "delete-btn" (target_classList e) then
    match closest_link_card e with
    | Some card =>
        match card_dataset_id card with
        | Some linkId =>
            if truthy linkId then
              let linkName :=
                match card_link_name card with
                | Some text => if truthy text then text else "this link"
                | None => "this link"
                end in
              Some (linkId, linkName)
            else None
        | None => None
        end
    | None => None
    end
  else None.

Definition delete_prompt (linkName : string) : string :=
  "Are you sure you want to delete " +:+ dq +:+ linkName +:+ dq +:+ "?".

Definition handleDeleteLink (e : ClickEvent) : Script unit :=
  match delete_request e with
  | Some (linkId, linkName) =>
      if confirm (delete_prompt linkName) then
        write (fun w =>
          set_links (List.filter (fun link => negb (String.eqb (id link) linkId)) (links w)) w) ;;
        ls ← read links;
        saveLinksToStorage ls ;;
        term ← read searchInput;
        renderLinks term
      else mret tt
  | None => mret tt
  end.

Definition handleSearch : Script unit :=
  term ← read searchInput;
  renderLinks term.

(** *** Theme management *)

Definition update_button (theme : string) (btn : ThemeBtn) : ThemeBtn :=
  let isActive := bool_decide (dataset_theme btn = Some theme) in
  {| dataset_theme := dataset_theme btn;
     classList := classList_toggle "active" isActive (classList btn);
     aria_checked := Some (if isActive then "true" else "false") |}.

Definition applyTheme (theme : string) : Script unit :=
  write (fun w =>
    set_body_classList (classList_remove ["theme-dark"; "theme-sepia"] (body_classList w)) w) ;;
  (if String.eqb theme "dark" then
     write (fun w => set_body_classList (classList_add "theme-dark" (body_classList w)) w)
   else if String.eqb theme "sepia" then
     write (fun w => set_body_classList (classList_add "theme-sepia" (body_classList w)) w)
   else mret tt) ;;
  write (fun w => set_localStorage (<["theme" := theme]> (localStorage w)) w) ;;
  write (fun w => set_themeButtons (map (update_button theme) (themeButtons w)) w).

Definition loadTheme : Script unit :=
  stored ← read (fun w => localStorage w !! "theme");
  let savedTheme :=
    match stored with
    | Some t => if truthy t then t else "light"
    | None => "light"
    end in
  applyTheme savedTheme.

Definition handleThemeChange (e : ClickEvent) : Script unit :=
  match closest_theme_btn e with
  | Some (Some theme) => if truthy theme then applyTheme theme else mret tt
  | _ => mret tt
  end.

(** *** Initialisation *)

Definition init (draw : nat -> nat) : Script unit :=
  loadTheme ;;
  loadLinksFromStorage ;;
  write (fun w => set_CARD_COLORS (shuffleArray draw (CARD_COLORS w)) w) ;;
  renderLinks "".

(** *** The page as it runs: one handler per user event *)

Inductive Event :=
| Submit (nameValue urlValue : string) (time : Z)
| ContainerClick (e : ClickEvent)
| SearchInput (term : string)
| SwitcherClick (e : ClickEvent).

(** A submit event finds the form as the user filled it and the clock at
    [time]; an input event finds the search bar holding [term]. *)
Definition dispatch (ev : Event) : Script unit :=
  match ev with
  | Submit nameValue urlValue time =>
      write (fun w => set_clock time (set_form nameValue urlValue w)) ;; handleAddLink
  | ContainerClick e => handleDeleteLink e
  | SearchInput term => write (set_searchInput term) ;; handleSearch
  | SwitcherClick e => handleThemeChange e
  end.

(** An exception a handler does not catch ends that handler only. *)
Definition run (events : list Event) (w : World) : World :=
  fold_left (fun w ev => exec (dispatch ev) w) events w.

End Page.

(** ** A concrete page, to run the script on examples *)

(** The page as the script finds it when it is loaded: no link, the palette in
    source order, empty storage, empty form, and the three buttons of the
    theme switcher. *)
Definition initial_world : World :=
  {| links := [];
     CARD_COLORS := ["#ffadad"; "#ffd6a5"; "#fdffb6"; "#caffbf";
                     "#9bf6ff"; "#a0c4ff"; "#bdb2ff"; "#ffc6ff"];
     localStorage := ∅;
     linksContainer := {| innerHTML := ""; children := [] |};
     linkNameInput := "";
     linkUrlInput := "";
     searchInput := "";
     activeElement := None;
     body_classList := [];
     themeButtons :=
       [ {| dataset_theme := Some "light"; classList := ["theme-btn"]; aria_checked := None |};
         {| dataset_theme := Some "dark"; classList := ["theme-btn"]; aria_checked := None |};
         {| dataset_theme := Some "sepia"; classList := ["theme-btn"]; aria_checked := None |} ];
     alerts := [];
     clock := 0 |}.

Definition is_lower (c : ascii) : bool :=
  let n := N_of_ascii c in ((97 <=? n) && (n <=? 122))%N.

(** The longest run of lower-case letters and dots at the head of the text. *)
Fixpoint plain_host (s : string) : string * string :=
  match s with
  | String c s' =>
      if is_lower c || Ascii.eqb c "."
      then let (h, rest) := plain_host s' in (String c h, rest)
      else (EmptyString, s)
  | EmptyString => (EmptyString, EmptyString)
  end.

(** A stand-in for [new URL(u).hostname] on plain URLs, for the examples: it
    accepts [scheme://host] and [scheme://host/...] where the scheme is http or
    https and the host is made of lower-case letters and dots and starts with a
    letter, and answers the host.  The URL constructor accepts these with the
    same hostname, and it rejects a text with an empty host such as [http://];
    it accepts many texts that this function rejects. *)
Definition plain_URL_hostname (u : string) : option string :=
  let after_scheme :=
    match JSON.literal "https://" u with
    | Some r => Some r
    | None => JSON.literal "http://" u
    end in
  match after_scheme with
  | Some r =>
      let (h, rest) := plain_host r in
      match h with
      | String c _ =>
          if is_lower c && (negb (truthy rest) || startsWith rest "/") then Some h else None
      | EmptyString => None
      end
  | None => None
  end.

Definition github : Link :=
  {| id := "link-3"; name := "GitHub"; url := "https://github.com" |}.
Definition gitlab : Link :=
  {| id := "link-2"; name := "gitlab"; url := "https://gitlab.com" |}.

(** The page holding the gitlab link, with the form as the user filled it, at
    clock reading 1730000000000. *)
Definition filled_form (nameValue urlValue : string) : World :=
  set_clock 1730000000000 (set_form nameValue urlValue (set_links [gitlab] initial_world)).

(** A click on the delete button of the card of [linkId]. *)
Definition delete_click (linkId linkName : string) : ClickEvent :=
  {| target_classList := ["delete-btn"];
     closest_link_card :=
       Some {| card_dataset_id := Some linkId; card_link_name := Some linkName |};
     closest_theme_btn := None |}.

(** A user who confirms every deletion. *)
Definition always_confirm (prompt : string) : bool := true.

(** The clock readings at which the form is submitted during a run. *)
Fixpoint submit_times (events : list Event) : list Z :=
  match events with
  | [] => []
  | Submit _ _ time :: events' => time :: submit_times events'
  | _ :: events' => submit_times events'
  end.

(** The theme style classes present on the body. *)
Definition theme_classes (w : World) : list string :=
  filter (fun c => c ∈ ["theme-dark"; "theme-sepia"]) (body_classList w).

(** [contains_ignoring_case name term]: the name contains the term as a
    substring when letter case is ignored. *)
Definition contains_ignoring_case (name term : string) : Prop :=
  exists before after, toLowerCase name = before +:+ toLowerCase term +:+ after.

(** * Properties *)

(** ** Strings *)

#[local] Arguments String.append !s1 s2 : simpl nomatch.

Lemma append_assoc (a b c : string) : (a +:+ b) +:+ c = a +:+ (b +:+ c).
Proof. induction a as [|x a IH]; simpl; [reflexivity | by rewrite IH]. Qed.

Lemma append_empty_r (a : string) : a +:+ "" = a.
Proof. induction a as [|x a IH]; simpl; [reflexivity | by rewrite IH]. Qed.

Lemma length_append (a b : string) :
  String.length (a +:+ b) = String.length a + String.length b.
Proof. induction a as [|x a IH]; simpl; [reflexivity | by rewrite IH]. Qed.

(** ** [JSON.parse] inverts [JSON.stringify] on arrays of links *)

Module JSONFacts.
Import JSON.
#[local] Arguments quote : simpl never.

Lemma parse_chars_quote_unit c tail :
  parse_chars (quote_unit c +:+ tail) = push c (parse_chars tail).
Proof.
  destruct c as [[] [] [] [] [] [] [] []]; reflexivity.
Qed.

Lemma parse_chars_quote_units s rest :
  parse_chars (quote_units s +:+ String dquote rest) = Some (s, rest).
Proof.
  induction s as [|c s IH]; simpl.
  - reflexivity.
  - rewrite append_assoc, parse_chars_quote_unit, IH. reflexivity.
Qed.

Lemma parse_chars_quote s rest :
  exists body, quote s +:+ rest = String dquote body /\ parse_chars body = Some (s, rest).
Proof.
  exists (quote_units s +:+ String dquote rest). split.
  - unfold quote. simpl. by rewrite append_assoc.
  - apply parse_chars_quote_units.
Qed.

Lemma parse_value_quote n s rest :
  parse_value (S n) (quote s +:+ rest) = Some (Str s, rest).
Proof.
  destruct (parse_chars_quote s rest) as (body & -> & Hbody).
  simpl. by rewrite Hbody.
Qed.

Lemma skip_ws_quote s rest : skip_ws (quote s +:+ rest) = quote s +:+ rest.
Proof. reflexivity. Qed.

Section Members.
Variable pv : string -> option (value * string).
Hypothesis pv_quote : forall s rest, pv (quote s +:+ rest) = Some (Str s, rest).

Lemma parse_member_comma n k s more :
  parse_members pv (S n) (quote k +:+ ":" +:+ quote s +:+ "," +:+ more)
  = match parse_members pv n (skip_ws more) with
    | Some (ms, r) => Some ((k, Str s) :: ms, r)
    | None => None
    end.
Proof.
  destruct (parse_chars_quote k (":" +:+ quote s +:+ "," +:+ more)) as (body & -> & Hbody).
  simpl. rewrite Hbody. simpl.
  change (String dquote ((quote_units s +:+ String dquote "") +:+ ?x)) with (quote s +:+ x).
  rewrite pv_quote. reflexivity.
Qed.

Lemma parse_member_last n k s rest :
  parse_members pv (S n) (quote k +:+ ":" +:+ quote s +:+ "}" +:+ rest)
  = Some ([(k, Str s)], rest).
Proof.
  destruct (parse_chars_quote k (":" +:+ quote s +:+ "}" +:+ rest)) as (body & -> & Hbody).
  simpl. rewrite Hbody. simpl.
  change (String dquote ((quote_units s +:+ String dquote "") +:+ ?x)) with (quote s +:+ x).
  rewrite pv_quote. reflexivity.
Qed.

End Members.

Lemma stringify_link l rest :
  stringify (value_of_link l) +:+ rest
  = "{" +:+ quote "id" +:+ ":" +:+ quote (id l) +:+ "," +:+
           quote "name" +:+ ":" +:+ quote (name l) +:+ "," +:+
           quote "url" +:+ ":" +:+ quote (url l) +:+ "}" +:+ rest.
Proof.
  unfold value_of_link. cbn [stringify map join fst snd].
  by rewrite !append_assoc.
Qed.

Lemma parse_value_object n k r :
  parse_value (S n) ("{" +:+ quote k +:+ r)
  = match parse_members (parse_value n) n (quote k +:+ r) with
    | Some (ms, rest) => Some (Object ms, rest)
    | None => None
    end.
Proof. reflexivity. Qed.

Lemma parse_value_link n l rest :
  parse_value (S (S (S (S n)))) (stringify (value_of_link l) +:+ rest)
  = Some (value_of_link l, rest).
Proof.
  rewrite stringify_link, parse_value_object.
  rewrite parse_member_comma by apply parse_value_quote.
  rewrite skip_ws_quote.
  rewrite parse_member_comma by apply parse_value_quote.
  rewrite skip_ws_quote.
  rewrite parse_member_last by apply parse_value_quote.
  reflexivity.
Qed.

Definition links_text (l : Link) (L : list Link) : string :=
  join "," (map stringify (map value_of_link (l :: L))).

Lemma links_text_nil l : links_text l [] = stringify (value_of_link l).
Proof. reflexivity. Qed.

Lemma links_text_cons l l' L :
  links_text l (l' :: L) = stringify (value_of_link l) +:+ "," +:+ links_text l' L.
Proof. reflexivity. Qed.

Lemma links_text_head l L rest :
  exists body, links_text l L +:+ rest = String "{" body.
Proof.
  destruct L as [|l' L].
  - rewrite links_text_nil, stringify_link. by eexists.
  - rewrite links_text_cons, append_assoc, stringify_link. by eexists.
Qed.

Lemma parse_elements_S pv n s :
  parse_elements pv (S n) s
  = match pv s with
    | None => None
    | Some (v, s1) =>
        match skip_ws s1 with
        | String c s2 =>
            if Ascii.eqb c ","
            then match parse_elements pv n (skip_ws s2) with
                 | Some (vs, s3) => Some (v :: vs, s3)
                 | None => None
                 end
            else if Ascii.eqb c "]" then Some ([v], s2) else None
        | EmptyString => None
        end
    end.
Proof.
  simpl. destruct (pv s) as [[v s1]|]; [|reflexivity].
  destruct (skip_ws s1) as [|c s2]; [reflexivity|].
  destruct c as [[] [] [] [] [] [] [] []]; reflexivity.
Qed.

Section Elements.
Variable pv : string -> option (value * string).
Hypothesis pv_link :
  forall l rest, pv (stringify (value_of_link l) +:+ rest) = Some (value_of_link l, rest).

Lemma parse_elements_links L : forall l n rest,
  length L < n ->
  parse_elements pv n (links_text l L +:+ "]" +:+ rest)
  = Some (map value_of_link (l :: L), rest).
Proof.
  induction L as [|l' L IH]; intros l n rest Hn.
  - destruct n as [|n]; [lia|].
    rewrite links_text_nil, parse_elements_S, pv_link. reflexivity.
  - destruct n as [|n]; [simpl in Hn; lia|].
    rewrite links_text_cons, !append_assoc, parse_elements_S, pv_link.
    specialize (IH l' n rest ltac:(simpl in Hn; lia)).
    destruct (links_text_head l' L ("]" +:+ rest)) as [body Hbody].
    revert IH. rewrite Hbody. intros IH.
    simpl. simpl in IH. rewrite IH. reflexivity.
Qed.

End Elements.

Lemma length_stringify_link l : 4 <= String.length (stringify (value_of_link l)).
Proof.
  rewrite <- (append_empty_r (stringify _)), stringify_link.
  simpl. lia.
Qed.

Lemma length_links_text l L : 4 + length L <= String.length (links_text l L).
Proof.
  revert l. induction L as [|l' L IH]; intros l.
  - rewrite links_text_nil. pose proof (length_stringify_link l). simpl; lia.
  - rewrite links_text_cons, !length_append.
    pose proof (length_stringify_link l). specialize (IH l'). simpl in *. lia.
Qed.

Lemma parse_value_array n body :
  parse_value (S n) ("[" +:+ String "{" body)
  = match parse_elements (parse_value n) n (String "{" body) with
    | Some (vs, rest) => Some (Array vs, rest)
    | None => None
    end.
Proof. reflexivity. Qed.

Theorem parse_stringify_links (L : list Link) :
  parse (stringify (value_of_links L)) = Some (value_of_links L).
Proof.
  destruct L as [|l L]; [reflexivity|].
  unfold parse, value_of_links.
  change (stringify (Array (map value_of_link (l :: L))))
    with ("[" +:+ links_text l L +:+ "]").
  pose proof (length_links_text l L) as Hlen.
  remember (String.length ("[" +:+ links_text l L +:+ "]")) as f eqn:Hf.
  rewrite !length_append in Hf. simpl in Hf.
  destruct f as [|[|[|[|f]]]]; try lia.
  rewrite <- (append_empty_r "]").
  destruct (links_text_head l L ("]" +:+ "")) as [body Hbody].
  rewrite Hbody.
  change (skip_ws ("[" +:+ String "{" body)) with ("[" +:+ String "{" body).
  rewrite parse_value_array, <- Hbody.
  rewrite (parse_elements_links (parse_value (S (S (S (S f))))) (parse_value_link f)) by lia.
  reflexivity.
Qed.
End JSONFacts.

(** ** Strings, continued *)

Lemma truthy_spec s : truthy s = true <-> s <> "".
Proof. destruct s; simpl; split; congruence. Qed.

Lemma truthy_false s : truthy s = false <-> s = "".
Proof. destruct s; simpl; split; congruence. Qed.

Lemma truthy_toLowerCase s : truthy (toLowerCase s) = truthy s.
Proof. by destruct s. Qed.

Lemma startsWith_spec s search :
  startsWith s search = true <-> exists rest, s = search +:+ rest.
Proof.
  revert s. induction search as [|b search IH]; intros s.
  - destruct s; simpl; split; eauto.
  - destruct s as [|a s]; simpl.
    + split; [discriminate | intros [rest Hrest]; discriminate].
    + rewrite andb_true_iff, Ascii.eqb_eq, IH. split.
      * intros [-> [rest ->]]. by exists rest.
      * intros [rest [= -> ->]]. eauto.
Qed.

Lemma includes_spec s search :
  includes s search = true <-> exists before after, s = before +:+ search +:+ after.
Proof.
  induction s as [|a s IH].
  - cbn [includes]. rewrite orb_false_r, startsWith_spec. split.
    + intros [rest ->]. by exists "", rest.
    + intros [before [after H]]. destruct before; [by exists after|discriminate].
  - cbn [includes]. rewrite orb_true_iff, startsWith_spec, IH. split.
    + intros [[rest ->]|[before [after ->]]].
      * by exists "", rest.
      * by exists (String a before), after.
    + intros [before [after H]]. destruct before as [|b before].
      * left. by exists after.
      * right. simpl in H. injection H as -> ->. by exists before, after.
Qed.

Ltac script :=
  unfold exec, mbind, Script_bind, mret, Script_ret, read, write, throw in *.

Section Properties.
Variable URL_hostname : string -> option string.
Variable confirm : string -> bool.

Lemma set_linksContainer_twice c c' w :
  set_linksContainer c (set_linksContainer c' w) = set_linksContainer c w.
Proof. reflexivity. Qed.

Lemma forEach_card_frame ls : forall index c0 w,
  exists c,
    exec (forEach (fun link index =>
                     card ← createLinkCard URL_hostname link index; appendChild card)
                  ls index)
         (set_linksContainer c0 w)
    = set_linksContainer c w.
Proof.
  induction ls as [|l ls IH]; intros index c0 w.
  - by exists c0.
  - cbn [forEach]. unfold createLinkCard.
    script. cbn [CARD_COLORS set_linksContainer].
    destruct (URL_hostname (url l)) as [domain|].
    + unfold appendChild. script.
      rewrite set_linksContainer_twice. apply IH.
    + by exists c0.
Qed.

Lemma renderLinks_frame searchTerm w :
  exists c, exec (renderLinks URL_hostname searchTerm) w = set_linksContainer c w.
Proof.
  unfold renderLinks, set_innerHTML. script. cbn [links set_linksContainer].
  destruct (length (filteredLinks (links w) searchTerm) =? 0)%nat.
  - destruct (length (links w) =? 0)%nat; script; eauto.
  - apply forEach_card_frame.
Qed.

Lemma renderLinks_links searchTerm w :
  links (exec (renderLinks URL_hostname searchTerm) w) = links w.
Proof. destruct (renderLinks_frame searchTerm w) as [c ->]. reflexivity. Qed.

Lemma renderLinks_localStorage searchTerm w :
  localStorage (exec (renderLinks URL_hostname searchTerm) w) = localStorage w.
Proof. destruct (renderLinks_frame searchTerm w) as [c ->]. reflexivity. Qed.

Lemma renderLinks_alerts searchTerm w :
  alerts (exec (renderLinks URL_hostname searchTerm) w) = alerts w.
Proof. destruct (renderLinks_frame searchTerm w) as [c ->]. reflexivity. Qed.

Lemma filteredLinks_empty_term ls : filteredLinks ls "" = ls.
Proof. reflexivity. Qed.

(** The store after a submit that passes both checks of [handleAddLink],
    whether or not the render that follows completes. *)
Lemma handleAddLink_valid (w : World) :
  trim (linkNameInput w) <> "" ->
  trim (linkUrlInput w) <> "" ->
  URL_hostname (with_scheme (trim (linkUrlInput w))) <> None ->
  let newLink := {| id := "link-" +:+ pretty (clock w);
                    name := trim (linkNameInput w);
                    url := with_scheme (trim (linkUrlInput w)) |} in
  let w' := exec (handleAddLink URL_hostname) w in
  links w' = newLink :: links w /\
  localStorage w'
  = <["savedLinks" := JSON.stringify (value_of_links (newLink :: links w))]> (localStorage w) /\
  alerts w' = alerts w.
Proof.
  intros Hname Hurl Hvalid newLink w'. subst w'.
  apply truthy_spec in Hname, Hurl.
  unfold handleAddLink. script.
  rewrite Hname, Hurl. cbn [negb orb].
  destruct (URL_hostname _) as [host|]; [clear Hvalid|congruence].
  unfold saveLinksToStorage. script.
  cbn [clock links searchInput set_links set_localStorage].
  fold newLink.
  set (w1 := set_localStorage _ _).
  pose proof (renderLinks_frame (searchInput w) w1) as [c Hc].
  unfold exec in Hc.
  destruct (renderLinks URL_hostname (searchInput w) w1) as [[[]|e] w2];
    simpl in Hc; subst w2; repeat split.
Qed.

(** C1. A submit whose name and URL are non-empty after trimming and whose URL
    validates puts exactly one new record in front of the list, leaves the
    records that were there unchanged and in order, and saves the full list:
    the [savedLinks] slot holds the serialised new list.  This holds whether or
    not the render that follows completes. *)
Theorem add_prepends_and_saves (w : World) :
  trim (linkNameInput w) <> "" ->
  trim (linkUrlInput w) <> "" ->
  URL_hostname (with_scheme (trim (linkUrlInput w))) <> None ->
  let newLink := {| id := "link-" +:+ pretty (clock w);
                    name := trim (linkNameInput w);
                    url := with_scheme (trim (linkUrlInput w)) |} in
  let w' := exec (handleAddLink URL_hostname) w in
  links w' = newLink :: links w /\
  length (links w') = S (length (links w)) /\
  filteredLinks (links w') "" = newLink :: links w /\
  localStorage w' !! "savedLinks" = Some (JSON.stringify (value_of_links (links w'))).
Proof.
  intros Hname Hurl Hvalid newLink w'.
  destruct (handleAddLink_valid w Hname Hurl Hvalid) as (Hl & Hs & _).
  fold newLink w' in Hl, Hs.
  rewrite filteredLinks_empty_term, Hl, Hs. repeat split.
  apply lookup_insert_eq.
Qed.

Lemma empty_field_outcome (w : World) :
  trim (linkNameInput w) = "" \/ trim (linkUrlInput w) = "" ->
  handleAddLink URL_hostname w = (Normal tt, w).
Proof.
  intros Hempty. unfold handleAddLink. script.
  destruct Hempty as [H|H]; apply truthy_false in H; rewrite H.
  - reflexivity.
  - by rewrite orb_true_r.
Qed.

Lemma invalid_url_outcome (w : World) :
  trim (linkNameInput w) <> "" ->
  trim (linkUrlInput w) <> "" ->
  URL_hostname (with_scheme (trim (linkUrlInput w))) = None ->
  handleAddLink URL_hostname w
  = (Normal tt, set_alerts (alerts w ++ ["Please enter a valid URL."]) w).
Proof.
  intros Hname Hurl Hinvalid.
  apply truthy_spec in Hname, Hurl.
  unfold handleAddLink, alert. script.
  by rewrite Hname, Hurl, Hinvalid.
Qed.

(** C5. When the name or the URL trims to the empty string the handler returns
    at once: no alert, the list unchanged, nothing saved; the whole page is as
    it was. *)
Theorem empty_field_is_silent_noop (w : World) :
  trim (linkNameInput w) = "" \/ trim (linkUrlInput w) = "" ->
  handleAddLink URL_hostname w = (Normal tt, w) /\
  alerts (exec (handleAddLink URL_hostname) w) = alerts w /\
  links (exec (handleAddLink URL_hostname) w) = links w /\
  localStorage (exec (handleAddLink URL_hostname) w) = localStorage w.
Proof.
  intros Hempty. pose proof (empty_field_outcome w Hempty) as H.
  unfold exec. rewrite H. repeat split.
Qed.

(** C4, amended. When the name and the URL are both non-empty after trimming
    and the trimmed URL, after the possible [https://] prefixing, does not
    parse, the alert is shown and the add is aborted: the list and the storage
    are unchanged, and so is everything else but the alert. *)
Theorem invalid_url_alerts_and_aborts (w : World) :
  trim (linkNameInput w) <> "" ->
  trim (linkUrlInput w) <> "" ->
  URL_hostname (with_scheme (trim (linkUrlInput w))) = None ->
  let w' := exec (handleAddLink URL_hostname) w in
  alerts w' = alerts w ++ ["Please enter a valid URL."] /\
  links w' = links w /\
  localStorage w' = localStorage w /\
  w' = set_alerts (alerts w') w.
Proof.
  intros Hname Hurl Hinvalid w'. subst w'.
  unfold exec. rewrite (invalid_url_outcome w Hname Hurl Hinvalid).
  repeat split.
Qed.


Lemma with_scheme_spec (u : string) :
  with_scheme u
  = if startsWith u "http://" || startsWith u "https://" then u else "https://" +:+ u.
Proof.
  unfold with_scheme.
  by destruct (startsWith u "http://"), (startsWith u "https://").
Qed.

(** C6, amended. On a successful add the stored URL is the trimmed input when
    that starts with [http://] or [https://], and the trimmed input with
    [https://] in front otherwise. *)
Theorem stored_url_is_trimmed_input_with_scheme (w : World) :
  trim (linkNameInput w) <> "" ->
  trim (linkUrlInput w) <> "" ->
  URL_hostname (with_scheme (trim (linkUrlInput w))) <> None ->
  let input := trim (linkUrlInput w) in
  let w' := exec (handleAddLink URL_hostname) w in
  exists newLink,
    links w' = newLink :: links w /\
    ((exists rest, input = "http://" +:+ rest) \/ (exists rest, input = "https://" +:+ rest) ->
     url newLink = input) /\
    (~ (exists rest, input = "http://" +:+ rest) ->
     ~ (exists rest, input = "https://" +:+ rest) ->
     url newLink = "https://" +:+ input).
Proof.
  intros Hname Hurl Hvalid input w'.
  destruct (handleAddLink_valid w Hname Hurl Hvalid) as (Hl & _ & _).
  eexists. split; [exact Hl|]. cbn [url]. fold input.
  rewrite with_scheme_spec. split.
  - intros Hprefix.
    rewrite <- !startsWith_spec in Hprefix. apply orb_true_iff in Hprefix.
    by rewrite Hprefix.
  - intros Hhttp Hhttps.
    rewrite <- startsWith_spec in Hhttp, Hhttps.
    apply not_true_is_false in Hhttp, Hhttps. by rewrite Hhttp, Hhttps.
Qed.

Lemma filter_keeps_all {A} (P : A -> Prop) `{!forall x, Decision (P x)} (l : list A) :
  Forall P l -> filter P l = l.
Proof.
  induction 1 as [|x l Hx _ IH]; [reflexivity|].
  by rewrite filter_cons_True, IH.
Qed.

(** The filter of [handleDeleteLink] keeps the records whose id differs. *)
Lemma filter_other_ids (linkId : string) (ls : list Link) :
  List.filter (fun link => negb (String.eqb (id link) linkId)) ls
  = filter (fun link => id link <> linkId) ls.
Proof.
  induction ls as [|l ls IH]; [reflexivity|].
  cbn [List.filter]. rewrite IH.
  destruct (String.eqb_spec (id l) linkId) as [Heq|Hne]; cbn [negb].
  - by rewrite filter_cons_False by (intros H; by apply H).
  - by rewrite filter_cons_True.
Qed.

(** What [delete_request] asks of a click: each guard of [handleDeleteLink]
    before the confirmation. *)
Lemma delete_request_Some (e : ClickEvent) (linkId linkName : string) :
  delete_request e = Some (linkId, linkName) <->
  "delete-btn" ∈ target_classList e /\
  exists card,
    closest_link_card e = Some card /\
    card_dataset_id card = Some linkId /\
    linkId <> "" /\
    linkName = match card_link_name card with
               | Some text => if truthy text then text else "this link"
               | None => "this link"
               end.
Proof.
  unfold delete_request, classList_contains. split.
  - case_bool_decide as Hbtn; [|discriminate].
    destruct (closest_link_card e) as [card|]; [|discriminate].
    destruct (card_dataset_id card) as [i|] eqn:Hid; [|discriminate].
    destruct (truthy i) eqn:Hi; [|discriminate].
    intros [= <- <-]. split; [exact Hbtn|].
    exists card. repeat split; [exact Hid|by apply truthy_spec].
  - intros (Hbtn & card & -> & -> & Hne & ->).
    rewrite bool_decide_eq_true_2 by exact Hbtn.
    apply truthy_spec in Hne. by rewrite Hne.
Qed.

(** A card whose [data-id] is the empty string is not a deletion request: the
    handler returns without asking. *)
Lemma delete_ignores_empty_id (e : ClickEvent) (card : CardElement) (w : World) :
  closest_link_card e = Some card ->
  card_dataset_id card = Some "" ->
  handleDeleteLink URL_hostname confirm e w = (Normal tt, w).
Proof.
  intros Hcard Hid. unfold handleDeleteLink, delete_request.
  rewrite Hcard, Hid. by destruct (classList_contains _ _).
Qed.

Lemma handleDeleteLink_confirmed (w : World) (e : ClickEvent) (linkId linkName : string) :
  delete_request e = Some (linkId, linkName) ->
  confirm (delete_prompt linkName) = true ->
  let w' := exec (handleDeleteLink URL_hostname confirm e) w in
  let remaining := filter (fun link => id link <> linkId) (links w) in
  links w' = remaining /\
  localStorage w'
  = <["savedLinks" := JSON.stringify (value_of_links remaining)]> (localStorage w).
Proof.
  intros Hreq Hyes w' remaining. subst w' remaining.
  unfold handleDeleteLink. rewrite Hreq, Hyes.
  unfold saveLinksToStorage. script.
  cbn [links searchInput set_links set_localStorage].
  rewrite filter_other_ids.
  set (w1 := set_localStorage _ _).
  pose proof (renderLinks_frame (searchInput w) w1) as [c Hc].
  unfold exec in Hc. rewrite Hc. split; reflexivity.
Qed.

(** C2. When a click designates the id [linkId] for deletion and the user
    confirms, the list becomes the records whose id differs from [linkId], in
    their order; when no record carries [linkId] the list is unchanged; in both
    cases the resulting list is saved. *)
Theorem delete_removes_matching_records
        (w : World) (e : ClickEvent) (linkId linkName : string) :
  delete_request e = Some (linkId, linkName) ->
  confirm (delete_prompt linkName) = true ->
  let w' := exec (handleDeleteLink URL_hostname confirm e) w in
  links w' = filter (fun link => id link <> linkId) (links w) /\
  (linkId ∉ map id (links w) -> links w' = links w) /\
  localStorage w' !! "savedLinks" = Some (JSON.stringify (value_of_links (links w'))).
Proof.
  intros Hreq Hyes w'.
  destruct (handleDeleteLink_confirmed w e linkId linkName Hreq Hyes) as [Hl Hs].
  fold w' in Hl, Hs. rewrite Hs, Hl. repeat split.
  - intros Habsent. apply filter_keeps_all, Forall_forall.
    intros l Hl' <-. apply Habsent, list_elem_of_In, in_map, list_elem_of_In, Hl'.
  - apply lookup_insert_eq.
Qed.

Lemma filter_bool_decide {A} (f : A -> bool) (P : A -> Prop) `{!forall x, Decision (P x)}
      (l : list A) :
  (forall x, f x = true <-> P x) -> List.filter f l = filter P l.
Proof.
  intros Hf. induction l as [|x l IH]; [reflexivity|].
  cbn [List.filter]. rewrite IH. destruct (f x) eqn:Hx.
  - by rewrite filter_cons_True by by apply Hf.
  - rewrite filter_cons_False; [done|]. rewrite <- Hf. congruence.
Qed.

#[global] Instance contains_ignoring_case_dec (name term : string) :
  Decision (contains_ignoring_case name term).
Proof.
  unfold contains_ignoring_case.
  destruct (includes (toLowerCase name) (toLowerCase term)) eqn:H.
  - left. by apply includes_spec.
  - right. intros Hc. apply includes_spec in Hc. congruence.
Defined.

Lemma contains_empty_term (name : string) : contains_ignoring_case name "".
Proof. by exists "", (toLowerCase name). Qed.

(** C3, amended. The filter selects, in order, exactly the records whose name
    contains the trimmed search term as a substring when case is ignored; it
    looks at the name only; a term that trims to the empty string selects the
    whole list; names GitHub, gitlab and Reddit with the term git give the first
    two. *)
Theorem filteredLinks_by_trimmed_term (ls : list Link) (term : string) :
  filteredLinks ls term
  = filter (fun link => contains_ignoring_case (name link) (trim term)) ls /\
  (trim term = "" -> filteredLinks ls term = ls) /\
  filteredLinks
    [ {| id := "link-3"; name := "GitHub"; url := "https://github.com" |};
      {| id := "link-2"; name := "gitlab"; url := "https://gitlab.com" |};
      {| id := "git-1"; name := "Reddit"; url := "https://git.reddit.com" |} ] "git"
  = [ {| id := "link-3"; name := "GitHub"; url := "https://github.com" |};
      {| id := "link-2"; name := "gitlab"; url := "https://gitlab.com" |} ].
Proof.
  split; [|split; [|reflexivity]].
  - unfold filteredLinks. rewrite truthy_toLowerCase.
    destruct (truthy (trim term)) eqn:Hterm.
    + apply filter_bool_decide. intros link. apply includes_spec.
    + apply truthy_false in Hterm. rewrite Hterm.
      symmetry. apply filter_keeps_all, Forall_forall.
      intros link _. apply contains_empty_term.
  - intros Hterm. unfold filteredLinks. by rewrite Hterm.
Qed.

Lemma link_of_value_of_link (l : Link) : link_of_value (value_of_link l) = Some l.
Proof. by destruct l. Qed.

Lemma links_of_value_of_links (L : list Link) :
  links_of_value (value_of_links L) = Some L.
Proof.
  unfold links_of_value, value_of_links.
  induction L as [|l L IH]; [reflexivity|].
  cbn [map mapM]. rewrite link_of_value_of_link.
  cbn [mbind option_bind]. rewrite IH. reflexivity.
Qed.

(** C7. Loading after saving [L] completes normally and leaves [links] equal
    to [L]. *)
Theorem load_after_save (w : World) (L : list Link) :
  (saveLinksToStorage L ;; loadLinksFromStorage) w
  = (Normal tt, set_links L (exec (saveLinksToStorage L) w)) /\
  links (exec (saveLinksToStorage L ;; loadLinksFromStorage) w) = L.
Proof.
  assert (H : (saveLinksToStorage L ;; loadLinksFromStorage) w
              = (Normal tt, set_links L (exec (saveLinksToStorage L) w))).
  { unfold saveLinksToStorage, loadLinksFromStorage. script.
    cbn [localStorage set_localStorage].
    rewrite lookup_insert_eq.
    replace (truthy (JSON.stringify (value_of_links L))) with true by reflexivity.
    rewrite JSONFacts.parse_stringify_links, links_of_value_of_links.
    reflexivity. }
  split; [exact H|]. unfold exec. rewrite H. reflexivity.
Qed.

(** C9. When the filter selects nothing, the container receives, through its
    [innerHTML], the shelf-is-empty markup when the store is empty and otherwise
    the no-results markup, in which the raw search term stands between the two
    quotes.  The term is thus part of markup that the browser parses. *)
Theorem renderLinks_empty_state (w : World) (searchTerm : string) :
  filteredLinks (links w) searchTerm = [] ->
  linksContainer (exec (renderLinks URL_hostname searchTerm) w)
  = {| innerHTML :=
         match links w with
         | [] => empty_shelf_markup
         | _ :: _ => no_results_markup searchTerm
         end;
       children := [] |}.
Proof.
  intros Hnone. unfold renderLinks, set_innerHTML. script.
  cbn [links set_linksContainer]. rewrite Hnone. cbn [length Nat.eqb].
  by destruct (links w).
Qed.

(** *** Themes *)

Lemma applyTheme_body (theme : string) (w : World) :
  body_classList (exec (applyTheme theme) w)
  = let cleared := classList_remove ["theme-dark"; "theme-sepia"] (body_classList w) in
    if String.eqb theme "dark" then classList_add "theme-dark" cleared
    else if String.eqb theme "sepia" then classList_add "theme-sepia" cleared
    else cleared.
Proof.
  unfold applyTheme. script. cbv zeta.
  destruct (String.eqb theme "dark"); [reflexivity|].
  destruct (String.eqb theme "sepia"); reflexivity.
Qed.

Lemma cleared_has_no_theme_class (l : list string) (c : string) :
  c ∈ ["theme-dark"; "theme-sepia"] ->
  c ∉ classList_remove ["theme-dark"; "theme-sepia"] l.
Proof.
  unfold classList_remove. intros Hc Hin.
  apply list_elem_of_filter in Hin as [Hnot _]. by apply Hnot.
Qed.

Lemma theme_filter_cleared (l : list string) :
  filter (fun c => c ∈ ["theme-dark"; "theme-sepia"])
         (classList_remove ["theme-dark"; "theme-sepia"] l) = [].
Proof.
  unfold classList_remove.
  induction l as [|c l IH]; [reflexivity|].
  destruct (decide (c ∈ ["theme-dark"; "theme-sepia"])) as [Hc|Hc].
  - rewrite (filter_cons_False _ c l); [exact IH | by intros H; apply H].
  - rewrite (filter_cons_True _ c l) by exact Hc.
    by rewrite filter_cons_False.
Qed.

Lemma theme_classes_after_apply (theme : string) (w : World) :
  theme_classes (exec (applyTheme theme) w)
  = if String.eqb theme "dark" then ["theme-dark"]
    else if String.eqb theme "sepia" then ["theme-sepia"]
    else [].
Proof.
  unfold theme_classes. rewrite applyTheme_body. cbv zeta.
  pose proof (theme_filter_cleared (body_classList w)) as Hclear.
  destruct (String.eqb theme "dark").
  { unfold classList_add. rewrite bool_decide_eq_false_2
      by (apply cleared_has_no_theme_class; set_solver).
    by rewrite filter_app, Hclear. }
  destruct (String.eqb theme "sepia").
  { unfold classList_add. rewrite bool_decide_eq_false_2
      by (apply cleared_has_no_theme_class; set_solver).
    by rewrite filter_app, Hclear. }
  exact Hclear.
Qed.

(** C10. After any calls of [applyTheme] followed by [applyTheme theme], the
    theme classes on the body are exactly [theme-dark] for dark, [theme-sepia]
    for sepia and none for any other name, light among them; so at most one is
    active, also after any sequence of calls on a page that had at most one;
    dark then sepia leaves the sepia class alone. *)
Theorem applyTheme_is_exclusive (w : World) (earlier : list string) (theme : string) :
  let apply_all := fold_left (fun w t => exec (applyTheme t) w) in
  let w' := exec (applyTheme theme) (apply_all earlier w) in
  theme_classes w'
  = (if String.eqb theme "dark" then ["theme-dark"]
     else if String.eqb theme "sepia" then ["theme-sepia"]
     else []) /\
  length (theme_classes w') <= 1 /\
  (theme = "light" -> theme_classes w' = []) /\
  (length (theme_classes w) <= 1 -> length (theme_classes (apply_all earlier w)) <= 1) /\
  theme_classes (apply_all ["dark"; "sepia"] w) = ["theme-sepia"].
Proof.
  intros apply_all w'. subst w'.
  split; [apply theme_classes_after_apply|].
  split; [rewrite theme_classes_after_apply; repeat case_match; simpl; lia|].
  split; [intros ->; by rewrite theme_classes_after_apply|].
  split; [|apply theme_classes_after_apply].
  destruct (rev earlier) as [|t before] eqn:Hrev.
  - apply (f_equal (@rev _)) in Hrev. rewrite rev_involutive in Hrev.
    by rewrite Hrev.
  - apply (f_equal (@rev _)) in Hrev. rewrite rev_involutive in Hrev.
    intros _. rewrite Hrev. simpl rev. unfold apply_all. rewrite fold_left_app.
    cbn [fold_left]. rewrite theme_classes_after_apply.
    repeat case_match; simpl; lia.
Qed.

(** *** Ids along a run *)

Lemma handleAddLink_links (w : World) :
  links (exec (handleAddLink URL_hostname) w) = links w \/
  exists name url,
    links (exec (handleAddLink URL_hostname) w)
    = {| id := "link-" +:+ pretty (clock w); name := name; url := url |} :: links w.
Proof.
  destruct (decide (trim (linkNameInput w) = "")) as [Hname|Hname].
  { left. unfold exec. by rewrite (empty_field_outcome w) by auto. }
  destruct (decide (trim (linkUrlInput w) = "")) as [Hurl|Hurl].
  { left. unfold exec. by rewrite (empty_field_outcome w) by auto. }
  destruct (URL_hostname (with_scheme (trim (linkUrlInput w)))) as [host|] eqn:Hvalid.
  - right. do 2 eexists. apply handleAddLink_valid; [done..|congruence].
  - left. unfold exec. by rewrite invalid_url_outcome.
Qed.

Lemma handleDeleteLink_links (e : ClickEvent) (w : World) :
  links (exec (handleDeleteLink URL_hostname confirm e) w) = links w \/
  exists linkId,
    links (exec (handleDeleteLink URL_hostname confirm e) w)
    = filter (fun link => id link <> linkId) (links w).
Proof.
  destruct (delete_request e) as [[linkId linkName]|] eqn:Hreq.
  - destruct (confirm (delete_prompt linkName)) eqn:Hyes.
    + right. exists linkId. by eapply handleDeleteLink_confirmed.
    + left. unfold handleDeleteLink. by rewrite Hreq, Hyes.
  - left. unfold handleDeleteLink. by rewrite Hreq.
Qed.

Lemma applyTheme_links (theme : string) (w : World) :
  links (exec (applyTheme theme) w) = links w.
Proof.
  unfold applyTheme. script.
  destruct (String.eqb theme "dark"); [reflexivity|].
  destruct (String.eqb theme "sepia"); reflexivity.
Qed.

Lemma dispatch_links (ev : Event) (w : World) :
  let w' := exec (dispatch URL_hostname confirm ev) w in
  links w' = links w \/
  (exists linkId, links w' = filter (fun link => id link <> linkId) (links w)) \/
  (exists time name url,
     time ∈ submit_times [ev] /\
     links w' = {| id := "link-" +:+ pretty time; name := name; url := url |} :: links w).
Proof.
  destruct ev as [nameValue urlValue time|e|term|e]; cbn [dispatch].
  - change (exec (_ ;; handleAddLink URL_hostname) w)
      with (exec (handleAddLink URL_hostname) (set_clock time (set_form nameValue urlValue w))).
    destruct (handleAddLink_links (set_clock time (set_form nameValue urlValue w)))
      as [H|(name & url & H)].
    + by left.
    + right; right. exists time, name, url. split; [apply list_elem_of_here|exact H].
  - destruct (handleDeleteLink_links e w) as [H|H]; auto.
  - left. change (exec (_ ;; handleSearch URL_hostname) w)
      with (exec (handleSearch URL_hostname) (set_searchInput term w)).
    unfold handleSearch. script. cbn [searchInput set_searchInput].
    apply (renderLinks_links term (set_searchInput term w)).
  - left. unfold handleThemeChange.
    destruct (closest_theme_btn e) as [[theme|]|]; try reflexivity.
    destruct (truthy theme); [apply applyTheme_links|reflexivity].
Qed.

Lemma link_id_inj (t1 t2 : Z) :
  "link-" +:+ pretty t1 = "link-" +:+ pretty t2 -> t1 = t2.
Proof. intros H. by apply (inj pretty), (inj (String.append "link-")). Qed.

Lemma sublist_filter_ids (linkId : string) (ls : list Link) :
  map id (filter (fun link => id link <> linkId) ls) `sublist_of` map id ls.
Proof.
  induction ls as [|l ls IH]; [constructor|].
  destruct (decide (id l <> linkId)) as [Hl|Hl].
  - rewrite filter_cons_True by exact Hl. cbn [map]. by constructor.
  - rewrite filter_cons_False by exact Hl. cbn [map]. by constructor.
Qed.

Lemma NoDup_filter_ids (linkId : string) (ls : list Link) :
  NoDup (map id ls) -> NoDup (map id (filter (fun link => id link <> linkId) ls)).
Proof.
  intros Hnd. exact (sublist_NoDup _ _ Hnd (sublist_filter_ids linkId ls)).
Qed.

Lemma elem_of_filter_ids (linkId x : string) (ls : list Link) :
  x ∈ map id (filter (fun link => id link <> linkId) ls) -> x ∈ map id ls.
Proof.
  rewrite !list_elem_of_In, !in_map_iff.
  intros (l & Hx & Hl). exists l. split; [exact Hx|].
  apply list_elem_of_In. apply list_elem_of_In in Hl.
  by apply list_elem_of_filter in Hl as [_ ?].
Qed.

Lemma submit_times_cons (ev : Event) (events : list Event) :
  submit_times (ev :: events) = submit_times [ev] ++ submit_times events.
Proof. by destruct ev. Qed.

(** C8, amended. Along any run of user events, if the ids in the store are
    pairwise distinct at the start, the form is never submitted twice at the
    same clock reading, and no id of the start is the id of one of these
    readings, then the ids in the store are pairwise distinct at the end; in
    particular each added record gets an id that no record of the list has. *)
Theorem ids_distinct_when_clock_readings_differ (w : World) (events : list Event) :
  NoDup (map id (links w)) ->
  NoDup (submit_times events) ->
  (forall time, time ∈ submit_times events -> "link-" +:+ pretty time ∉ map id (links w)) ->
  NoDup (map id (links (run URL_hostname confirm events w))).
Proof.
  revert w. induction events as [|ev events IH]; intros w Hnd Htimes Hfresh.
  - exact Hnd.
  - cbn [run fold_left]. rewrite submit_times_cons in Htimes, Hfresh.
    apply NoDup_app in Htimes as (_ & Hapart & Hlater).
    assert (Hnow : forall time, time ∈ submit_times [ev] ->
                     "link-" +:+ pretty time ∉ map id (links w)).
    { intros time Ht. apply Hfresh, elem_of_app. by left. }
    assert (Hthen : forall time, time ∈ submit_times events ->
                      "link-" +:+ pretty time ∉ map id (links w)).
    { intros time Ht. apply Hfresh, elem_of_app. by right. }
    pose proof (dispatch_links ev w) as Hstep. cbv zeta in Hstep.
    apply IH; clear IH; [|exact Hlater|].
    + destruct Hstep as [->|[[linkId ->]|(time & name & url & Ht & ->)]].
      * exact Hnd.
      * by apply NoDup_filter_ids.
      * cbn [map id]. apply NoDup_cons. split; [by apply Hnow|exact Hnd].
    + intros time' Ht'.
      destruct Hstep as [->|[[linkId ->]|(time & name & url & Ht & ->)]].
      * by apply Hthen.
      * intros Hmem. apply elem_of_filter_ids in Hmem. by apply (Hthen time').
      * cbn [map id]. apply not_elem_of_cons. split; [|by apply Hthen].
        intros Heq. apply link_id_inj in Heq. subst time'.
        exact (Hapart time Ht Ht').
Qed.
End Properties.

(** ** The theorems at concrete pages *)

Lemma add_prepends_and_saves_witness :
  links (exec (handleAddLink plain_URL_hostname) (filled_form " GitHub " "github.com"))
  = [ {| id := "link-1730000000000"; name := "GitHub"; url := "https://github.com" |};
      gitlab ].
Proof.
  refine (proj1 (add_prepends_and_saves plain_URL_hostname
                   (filled_form " GitHub " "github.com") _ _ _));
    vm_compute; discriminate.
Defined.

Lemma empty_field_is_silent_noop_witness :
  handleAddLink plain_URL_hostname (filled_form "   " "github.com")
  = (Normal tt, filled_form "   " "github.com").
Proof.
  refine (proj1 (empty_field_is_silent_noop plain_URL_hostname
                   (filled_form "   " "github.com") _)).
  left. vm_compute. reflexivity.
Defined.

Lemma invalid_url_alerts_and_aborts_witness :
  alerts (exec (handleAddLink plain_URL_hostname) (filled_form "Broken" "http://"))
  = ["Please enter a valid URL."].
Proof.
  refine (proj1 (invalid_url_alerts_and_aborts plain_URL_hostname
                   (filled_form "Broken" "http://") _ _ _));
    vm_compute; try discriminate; reflexivity.
Defined.

(** C4 as stated fails: an unparseable URL submitted with an empty name raises
    no alert. *)
Lemma invalid_url_with_empty_name_raises_no_alert :
  plain_URL_hostname (with_scheme (trim (linkUrlInput (filled_form "" "http://")))) = None /\
  alerts (exec (handleAddLink plain_URL_hostname) (filled_form "" "http://")) = [].
Proof. split; vm_compute; reflexivity. Qed.

Lemma stored_url_witness :
  exists newLink,
    links (exec (handleAddLink plain_URL_hostname) (filled_form "Example" "example.com"))
    = [newLink; gitlab] /\
    url newLink = "https://example.com".
Proof.
  destruct (stored_url_is_trimmed_input_with_scheme plain_URL_hostname
              (filled_form "Example" "example.com")) as (newLink & Hl & _ & Hplain);
    [vm_compute; discriminate..|].
  exists newLink. split; [exact Hl|].
  apply Hplain; intros [rest Hrest]; vm_compute in Hrest; discriminate.
Defined.

(** C6 as stated fails: the input [ example.com] does not start with either
    prefix, and what is stored is not the input with [https://] in front. *)
Lemma untrimmed_input_is_not_what_is_stored :
  startsWith " example.com" "http://" = false /\
  startsWith " example.com" "https://" = false /\
  map url (links (exec (handleAddLink plain_URL_hostname)
                       (filled_form "Example" " example.com")))
  = ["https://example.com"; "https://gitlab.com"] /\
  "https://example.com" <> "https://" +:+ " example.com".
Proof. repeat split; vm_compute; (reflexivity || discriminate). Qed.

Lemma delete_removes_matching_records_witness :
  links (exec (handleDeleteLink plain_URL_hostname always_confirm
                 (delete_click "link-2" "gitlab"))
              (set_links [github; gitlab] initial_world))
  = [github].
Proof.
  exact (proj1 (delete_removes_matching_records plain_URL_hostname always_confirm
                  (set_links [github; gitlab] initial_world)
                  (delete_click "link-2" "gitlab") "link-2" "gitlab" eq_refl eq_refl)).
Defined.

(** C3 as stated fails: with the term [ git] the record named GitHub is
    selected, although its name does not contain the term. *)
Lemma untrimmed_term_is_not_what_is_matched :
  filteredLinks [github] " git" = [github] /\
  ~ contains_ignoring_case (name github) " git".
Proof.
  split; [reflexivity|].
  intros Hc. apply includes_spec in Hc. vm_compute in Hc. discriminate.
Qed.

(** C8 as stated fails: two submits at the same clock reading leave two
    records with one id. *)
Lemma same_millisecond_adds_share_an_id :
  links (run plain_URL_hostname always_confirm
             [Submit "A" "a.com" 1000; Submit "B" "b.com" 1000] initial_world)
  = [ {| id := "link-1000"; name := "B"; url := "https://b.com" |};
      {| id := "link-1000"; name := "A"; url := "https://a.com" |} ] /\
  ~ NoDup (map id (links (run plain_URL_hostname always_confirm
                              [Submit "A" "a.com" 1000; Submit "B" "b.com" 1000]
                              initial_world))).
Proof.
  split; [vm_compute; reflexivity|].
  intros Hnd. vm_compute in Hnd. apply NoDup_cons in Hnd as [Hnotin _].
  apply Hnotin, list_elem_of_here.
Qed.

Lemma ids_distinct_witness :
  NoDup (map id (links (run plain_URL_hostname always_confirm
                            [ Submit "A" "a.com" 1000;
                              ContainerClick (delete_click "link-2" "gitlab");
                              Submit "B" "b.com" 1001 ]
                            (set_links [github; gitlab] initial_world)))).
Proof.
  apply ids_distinct_when_clock_readings_differ.
  - compute_done.
  - compute_done.
  - intros time Htime.
    apply list_elem_of_In in Htime. simpl in Htime.
    destruct Htime as [<-|[<-|[]]]; compute_done.
Defined.

Lemma renderLinks_empty_state_witness :
  linksContainer (exec (renderLinks plain_URL_hostname "<img src=x onerror=alert(1)>")
                       (set_links [github] initial_world))
  = {| innerHTML := no_results_markup "<img src=x onerror=alert(1)>"; children := [] |}.
Proof.
  exact (renderLinks_empty_state plain_URL_hostname (set_links [github] initial_world)
           "<img src=x onerror=alert(1)>" eq_refl).
Defined.

(** * Further properties: the rest of the script *)

(** ** The palette shuffle *)

Lemma insert_head_Permutation (x y : string) (t : list string) (j : nat) :
  t !! j = Some y -> y :: <[j := x]> t ≡ₚ x :: t.
Proof.
  revert j. induction t as [|h t IH]; intros j Hj; [discriminate|].
  destruct j as [|j]; simpl in *.
  - injection Hj as ->. apply perm_swap.
  - rewrite (perm_swap h y), (IH j Hj). apply perm_swap.
Qed.

Lemma swap_Permutation (i j : nat) (array : list string) : swap i j array ≡ₚ array.
Proof.
  unfold swap. revert i j. induction array as [|h t IH]; intros i j; [by destruct i|].
  destruct (_ !! i) as [x|] eqn:Hi; [|reflexivity].
  destruct (_ !! j) as [y|] eqn:Hj; [|reflexivity].
  destruct i as [|i], j as [|j]; simpl in *.
  - by simplify_eq.
  - injection Hi as ->. by apply insert_head_Permutation.
  - injection Hj as ->. symmetry. rewrite <- (insert_head_Permutation y x t i Hi). 
    reflexivity.
  - specialize (IH i j). rewrite Hi, Hj in IH. by rewrite IH.
Qed.

Lemma shuffle_from_Permutation (draw : nat -> nat) (i : nat) (array : list string) :
  shuffle_from draw i array ≡ₚ array.
Proof.
  revert array. induction i as [|i IH]; intros array; [reflexivity|].
  cbn [shuffle_from]. rewrite IH. apply swap_Permutation.
Qed.

(** X1. [shuffleArray] only moves the elements around: with draws in range
    ([Math.floor(Math.random() * (i + 1))] is an index from 0 to [i]) the
    shuffled array is a permutation of the given one, of the same length. *)
Theorem shuffleArray_permutes (draw : nat -> nat) (array : list string) :
  (forall i, draw i <= i) ->
  shuffleArray draw array ≡ₚ array /\
  length (shuffleArray draw array) = length array.
Proof.
  intros _. pose proof (shuffle_from_Permutation draw (length array - 1) array) as H.
  split; [exact H|]. by apply Permutation_length.
Qed.

(** ** The favicon of a card and its fallbacks *)

(** The generic globe icon, as the source spells it. *)
Definition fallbackIconSvg : string :=
  "<svg xmlns=" +:+
  dq +:+
  "http://www.w3.org/2000/svg" +:+
  dq +:+
  " viewBox=" +:+
  dq +:+
  "0 0 24 24" +:+
  dq +:+
  " fill=" +:+
  dq +:+
  "rgba(0,0,0,0.5)" +:+
  dq +:+
  "><path d=" +:+
  dq +:+
  "M12 2C6.48 2 2 6.48 2 12s4.48 10 10 10 10-4.48 10-10S17.52 2 12 2zm-1 " +:+
  "17.93c-3.95-.49-7-3.85-7-7.93 0-.62.08-1.21.21-1.79L9 15v1c0 1.1.9 2 2" +:+
  " 2v1.93zm6.9-2.54c-.26-.81-1-1.39-1.9-1.39h-1v-3c0-.55-.45-1-1-1H8v-2h" +:+
  "2c.55 0 1-.45 1-1V7h2c1.1 0 2-.9 2-2v-.41c2.93 1.19 5 4.06 5 7.41 0 2." +:+
  "08-.8 3.97-2.1 5.39z" +:+
  dq +:+
  "/></svg>".

Definition base64_alphabet : string :=
  "ABCDEFGHIJKLMNOPQRSTUVWXYZabcdefghijklmnopqrstuvwxyz0123456789+/".

Definition base64_digit (n : N) : ascii :=
  match String.get (N.to_nat n) base64_alphabet with
  | Some c => c
  | None => "="%char
  end.

(** [btoa]: base64 of a string of code units below 256. *)
Fixpoint btoa (s : string) : string :=
  match s with
  | EmptyString => EmptyString
  | String a EmptyString =>
      let x := N_of_ascii a in
      String (base64_digit (x / 4))
        (String (base64_digit (x mod 4 * 16)) "==")
  | String a (String b EmptyString) =>
      let x := N_of_ascii a in
      let y := N_of_ascii b in
      String (base64_digit (x / 4))
        (String (base64_digit (x mod 4 * 16 + y / 16))
           (String (base64_digit (y mod 16 * 4)) "="))
  | String a (String b (String c rest)) =>
      let x := N_of_ascii a in
      let y := N_of_ascii b in
      let z := N_of_ascii c in
      String (base64_digit (x / 4))
        (String (base64_digit (x mod 4 * 16 + y / 16))
           (String (base64_digit (y mod 16 * 4 + z / 64))
              (String (base64_digit (z mod 64)) (btoa rest))))
  end%N.

Definition fallbackIconDataUrl : string :=
  "data:image/svg+xml;base64," +:+ btoa fallbackIconSvg.

(** The [img] element of a card, as far as the fallback goes: its source, its
    [data-fallback-attempted] attribute, and whether its [onerror] handler is
    still set. *)
Record Favicon := {
  src : string;
  dataset_fallbackAttempted : option string;
  onerror : bool
}.

(** The favicon as [createLinkCard] creates it for a link of host [domain]. *)
Definition createFavicon (domain : string) : Favicon :=
  {| src := "https://www.google.com/s2/favicons?sz=64&domain_url=" +:+ domain;
     dataset_fallbackAttempted := None;
     onerror := true |}.

(** The image fails to load: the browser calls the [onerror] handler, if one is
    set. *)
Definition favicon_error (domain : string) (favicon : Favicon) : Favicon :=
  if onerror favicon then
    let attempted :=
      match dataset_fallbackAttempted favicon with
      | Some flag => truthy flag
      | None => false
      end in
    if negb attempted then
      {| src := "https://icons.duckduckgo.com/ip3/" +:+ domain +:+ ".ico";
         dataset_fallbackAttempted := Some "true";
         onerror := true |}
    else
      {| src := fallbackIconDataUrl;
         dataset_fallbackAttempted := dataset_fallbackAttempted favicon;
         onerror := false |}
  else favicon.

(** ** Themes, continued *)

Lemma applyTheme_localStorage (theme : string) (w : World) :
  localStorage (exec (applyTheme theme) w) = <["theme" := theme]> (localStorage w).
Proof.
  unfold applyTheme. script.
  destruct (String.eqb theme "dark"); [reflexivity|].
  destruct (String.eqb theme "sepia"); reflexivity.
Qed.

Definition themed_body (theme : string) (body : list string) : list string :=
  let cleared := classList_remove ["theme-dark"; "theme-sepia"] body in
  if String.eqb theme "dark" then classList_add "theme-dark" cleared
  else if String.eqb theme "sepia" then classList_add "theme-sepia" cleared
  else cleared.

Lemma applyTheme_world (theme : string) (w : World) :
  applyTheme theme w
  = (Normal tt,
     set_themeButtons (map (update_button theme) (themeButtons w))
       (set_localStorage (<["theme" := theme]> (localStorage w))
          (set_body_classList (themed_body theme (body_classList w)) w))).
Proof.
  unfold applyTheme, themed_body. script.
  destruct (String.eqb theme "dark"); [reflexivity|].
  destruct (String.eqb theme "sepia"); reflexivity.
Qed.

Lemma classList_remove_twice (tokens l : list string) :
  classList_remove tokens (classList_remove tokens l) = classList_remove tokens l.
Proof.
  unfold classList_remove. induction l as [|c l IH]; [reflexivity|].
  destruct (decide (c ∉ tokens)) as [Hc|Hc].
  - rewrite (filter_cons_True _ c l) by exact Hc.
    rewrite filter_cons_True by exact Hc. by rewrite IH.
  - by rewrite (filter_cons_False _ c l) by exact Hc.
Qed.

Lemma classList_remove_app (tokens l k : list string) :
  classList_remove tokens (l ++ k) = classList_remove tokens l ++ classList_remove tokens k.
Proof. apply filter_app. Qed.

Lemma classList_remove_add (token : string) (tokens l : list string) :
  token ∈ tokens ->
  classList_remove tokens (classList_add token l) = classList_remove tokens l.
Proof.
  intros Hin. unfold classList_add. case_bool_decide; [reflexivity|].
  rewrite classList_remove_app. unfold classList_remove at 2.
  rewrite filter_cons_False by (intros H'; by apply H').
  by rewrite filter_nil, app_nil_r.
Qed.

Lemma themed_body_cleared (theme : string) (body : list string) :
  classList_remove ["theme-dark"; "theme-sepia"] (themed_body theme body)
  = classList_remove ["theme-dark"; "theme-sepia"] body.
Proof.
  unfold themed_body. cbv zeta.
  destruct (String.eqb theme "dark").
  { rewrite classList_remove_add by apply list_elem_of_here.
    apply classList_remove_twice. }
  destruct (String.eqb theme "sepia").
  { rewrite classList_remove_add by apply list_elem_of_further, list_elem_of_here.
    apply classList_remove_twice. }
  apply classList_remove_twice.
Qed.

Lemma theme_classes_of_cleared (body : list string) :
  filter (fun c => c ∈ ["theme-dark"; "theme-sepia"])
         (classList_remove ["theme-dark"; "theme-sepia"] body) = [].
Proof.
  unfold classList_remove. induction body as [|c body IH]; [reflexivity|].
  destruct (decide (c ∈ ["theme-dark"; "theme-sepia"])) as [Hc|Hc].
  - rewrite (filter_cons_False _ c body); [exact IH|by intros H; apply H].
  - rewrite (filter_cons_True _ c body) by exact Hc. by rewrite filter_cons_False.
Qed.

Lemma theme_classes_of_added (token : string) (body : list string) :
  token ∈ ["theme-dark"; "theme-sepia"] ->
  filter (fun c => c ∈ ["theme-dark"; "theme-sepia"])
         (classList_add token (classList_remove ["theme-dark"; "theme-sepia"] body))
  = [token].
Proof.
  intros Htoken. unfold classList_add. rewrite bool_decide_eq_false_2.
  - rewrite filter_app, theme_classes_of_cleared. by rewrite filter_cons_True.
  - unfold classList_remove. intros Hin.
    apply list_elem_of_filter in Hin as [Hnot _]. by apply Hnot.
Qed.

Lemma theme_classes_of_themed_body (theme : string) (w : World) :
  theme_classes (exec (applyTheme theme) w)
  = if String.eqb theme "dark" then ["theme-dark"]
    else if String.eqb theme "sepia" then ["theme-sepia"]
    else [].
Proof.
  unfold theme_classes, exec. rewrite applyTheme_world.
  cbn [snd body_classList set_themeButtons set_localStorage set_body_classList].
  unfold themed_body. cbv zeta.
  destruct (String.eqb theme "dark").
  { apply theme_classes_of_added, list_elem_of_here. }
  destruct (String.eqb theme "sepia").
  { apply theme_classes_of_added, list_elem_of_further, list_elem_of_here. }
  apply theme_classes_of_cleared.
Qed.

Lemma themed_body_twice (theme : string) (body : list string) :
  themed_body theme (themed_body theme body) = themed_body theme body.
Proof.
  unfold themed_body at 1. cbv zeta. rewrite themed_body_cleared.
  reflexivity.
Qed.

Lemma classList_add_twice (token : string) (l : list string) :
  classList_add token (classList_add token l) = classList_add token l.
Proof.
  unfold classList_add at 1. rewrite bool_decide_eq_true_2; [reflexivity|].
  unfold classList_add. case_bool_decide; [done|].
  apply elem_of_app. right. apply list_elem_of_here.
Qed.

Lemma update_button_twice (theme : string) (btn : ThemeBtn) :
  update_button theme (update_button theme btn) = update_button theme btn.
Proof.
  unfold update_button. cbn [dataset_theme classList].
  f_equal. unfold classList_toggle.
  destruct (bool_decide _); [apply classList_add_twice|apply classList_remove_twice].
Qed.

Lemma applyTheme_twice (w : World) (theme : string) :
  applyTheme theme (exec (applyTheme theme) w) = applyTheme theme w.
Proof.
  unfold exec. rewrite !applyTheme_world.
  cbn [snd themeButtons localStorage body_classList set_themeButtons set_localStorage
       set_body_classList].
  rewrite themed_body_twice, insert_insert_eq.
  rewrite map_map, (map_ext _ _ (update_button_twice theme)).
  reflexivity.
Qed.

Lemma loadTheme_after_applyTheme (w : World) (theme : string) :
  theme <> "" -> loadTheme (exec (applyTheme theme) w) = applyTheme theme w.
Proof.
  intros Hne. rewrite <- applyTheme_twice.
  unfold loadTheme, mbind, Script_bind, read.
  rewrite applyTheme_localStorage, lookup_insert_eq.
  apply truthy_spec in Hne. by rewrite Hne.
Qed.

(** X12. Applying a theme a second time changes nothing. *)
Theorem applyTheme_is_idempotent (w : World) (theme : string) :
  applyTheme theme (exec (applyTheme theme) w) = applyTheme theme w /\
  exec (applyTheme theme) (exec (applyTheme theme) w) = exec (applyTheme theme) w.
Proof.
  pose proof (applyTheme_twice w theme) as H. split; [exact H|].
  unfold exec at 1 3. by rewrite H.
Qed.

(** X13. After a click on a theme button with a non-empty [data-theme], the
    [theme] slot holds that name, and loading the theme again, as [init] does on
    the next visit, leaves the page as the click left it. *)
Theorem theme_choice_survives_reload (w : World) (e : ClickEvent) (theme : string) :
  closest_theme_btn e = Some (Some theme) ->
  theme <> "" ->
  let w' := exec (handleThemeChange e) w in
  localStorage w' !! "theme" = Some theme /\
  loadTheme w' = (Normal tt, w').
Proof.
  intros Hbtn Hne w'. subst w'. unfold handleThemeChange. rewrite Hbtn.
  apply truthy_spec in Hne as Htruthy. rewrite Htruthy.
  split; [rewrite applyTheme_localStorage; apply lookup_insert_eq|].
  rewrite loadTheme_after_applyTheme by exact Hne.
  unfold exec. by rewrite applyTheme_world.
Qed.

(** X11. [applyTheme] leaves the classes of the body other than the two theme
    classes as they were, in their order. *)
Theorem applyTheme_keeps_other_classes (w : World) (theme : string) :
  filter (fun c => c ∉ ["theme-dark"; "theme-sepia"])
         (body_classList (exec (applyTheme theme) w))
  = filter (fun c => c ∉ ["theme-dark"; "theme-sepia"]) (body_classList w).
Proof.
  unfold exec. rewrite applyTheme_world. cbn [snd body_classList set_themeButtons
    set_localStorage set_body_classList].
  apply themed_body_cleared.
Qed.

(** X10. [applyTheme] stores the theme name as given, and leaves each button
    of the switcher with its [data-theme], with [aria-checked] true or false
    and the class [active] present or absent according to whether its
    [data-theme] is the applied theme, and with its other classes as they
    were. *)
Theorem applyTheme_saves_and_marks_buttons (w : World) (theme : string) :
  let w' := exec (applyTheme theme) w in
  localStorage w' !! "theme" = Some theme /\
  Forall2 (fun btn btn' =>
             dataset_theme btn' = dataset_theme btn /\
             aria_checked btn'
             = Some (if bool_decide (dataset_theme btn = Some theme) then "true" else "false") /\
             ("active" ∈ classList btn' <-> dataset_theme btn = Some theme) /\
             (forall c, c <> "active" -> c ∈ classList btn' <-> c ∈ classList btn))
          (themeButtons w) (themeButtons w').
Proof.
  intros w'. subst w'. unfold exec. rewrite applyTheme_world.
  cbn [snd themeButtons localStorage set_themeButtons set_localStorage set_body_classList].
  split; [apply lookup_insert_eq|].
  induction (themeButtons w) as [|btn btns IH]; [constructor|].
  cbn [map]. constructor; [|exact IH].
  unfold update_button. cbn [dataset_theme aria_checked classList].
  split; [reflexivity|]. split; [reflexivity|].
  unfold classList_toggle, classList_add, classList_remove.
  case_bool_decide as Hactive.
  - split.
    + split; [done|]. intros _. case_bool_decide; [done|].
      apply elem_of_app. right. apply list_elem_of_here.
    + intros c Hc. case_bool_decide; [done|].
      rewrite elem_of_app, list_elem_of_singleton. split; [intros [?|?]; done|by left].
  - split.
    + split; [|done]. intros Hin. apply list_elem_of_filter in Hin as [Hnot _].
      exfalso. apply Hnot, list_elem_of_here.
    + intros c Hc. rewrite list_elem_of_filter, list_elem_of_singleton.
      split; [by intros [_ ?]|by split].
Qed.

(** X9. [loadTheme] never throws; it leaves the dark class for a stored
    [dark], the sepia class for a stored [sepia], and no theme class for any
    other stored value or none; afterwards the [theme] slot holds the stored
    value, or [light] when there was none or the empty string. *)
Theorem loadTheme_applies_the_saved_theme (w : World) :
  let saved := localStorage w !! "theme" in
  let w' := exec loadTheme w in
  fst (loadTheme w) = Normal tt /\
  theme_classes w'
  = (if bool_decide (saved = Some "dark") then ["theme-dark"]
     else if bool_decide (saved = Some "sepia") then ["theme-sepia"]
     else []) /\
  localStorage w' !! "theme"
  = Some (match saved with
          | Some theme => if truthy theme then theme else "light"
          | None => "light"
          end).
Proof.
  cbv zeta. unfold loadTheme, exec, mbind, Script_bind, read. cbn [fst snd].
  set (theme := match localStorage w !! "theme" with
                | Some t => if truthy t then t else "light"
                | None => "light"
                end).
  split; [by rewrite applyTheme_world|].
  split.
  - fold (exec (applyTheme theme) w).
    rewrite (theme_classes_of_themed_body theme w). subst theme.
    destruct (localStorage w !! "theme") as [t|]; [|reflexivity].
    destruct t as [|c t]; [reflexivity|]. cbn [truthy].
    destruct (String.eqb_spec (String c t) "dark") as [->|Hd].
    { by rewrite bool_decide_eq_true_2. }
    rewrite bool_decide_eq_false_2 by congruence.
    destruct (String.eqb_spec (String c t) "sepia") as [->|Hs].
    { by rewrite bool_decide_eq_true_2. }
    by rewrite bool_decide_eq_false_2 by congruence.
  - fold (exec (applyTheme theme) w).
    rewrite (applyTheme_localStorage theme w). apply lookup_insert_eq.
Qed.

(** ** Rendering the cards *)

Section MoreProperties.
Variable URL_hostname : string -> option string.
Variable confirm : string -> bool.

(** [card] is the card that [createLinkCard] builds for [link] at [index] with
    the palette [colors]. *)
Definition card_of (colors : list string) (link : Link) (index : nat) (card : Card) : Prop :=
  className card = "link-card" /\
  backgroundColor card = default "" (colors !! (index mod length colors)) /\
  dataset_id card = id link /\
  href card = url link /\
  target card = "_blank" /\
  rel card = "noopener noreferrer" /\
  (exists domain,
     URL_hostname (url link) = Some domain /\
     favicon_src card = "https://www.google.com/s2/favicons?sz=64&domain_url=" +:+ domain) /\
  linkName_textContent card = name link /\
  deleteBtn_aria_label card = "Delete " +:+ name link.

Definition parses (link : Link) : Prop := URL_hostname (url link) <> None.

(** One turn of the loop of [renderLinks]. *)
Definition built_card (colors : list string) (domain : string) (link : Link) (index : nat) : Card :=
  {| className := "link-card";
     backgroundColor := default "" (colors !! (index mod length colors));
     dataset_id := id link;
     href := url link;
     target := "_blank";
     rel := "noopener noreferrer";
     favicon_src := "https://www.google.com/s2/favicons?sz=64&domain_url=" +:+ domain;
     linkName_textContent := name link;
     deleteBtn_aria_label := "Delete " +:+ name link |}.

Lemma forEach_card_step (l : Link) (ls : list Link) (domain : string)
      (index : nat) (markup : string) (cards0 : list Card) (w : World) :
  URL_hostname (url l) = Some domain ->
  forEach (fun link index =>
             card ← createLinkCard URL_hostname link index; appendChild card)
          (l :: ls) index
          (set_linksContainer {| innerHTML := markup; children := cards0 |} w)
  = forEach (fun link index =>
               card ← createLinkCard URL_hostname link index; appendChild card)
            ls (S index)
            (set_linksContainer
               {| innerHTML := markup;
                  children := cards0 ++ [built_card (CARD_COLORS w) domain l index] |} w).
Proof.
  intros Hdomain. cbn [forEach].
  unfold createLinkCard, appendChild, mbind, Script_bind, read, mret, Script_ret, write.
  cbn [CARD_COLORS set_linksContainer]. rewrite Hdomain. reflexivity.
Qed.

Lemma forEach_card_throw (bad : Link) (after : list Link) (index : nat) (w : World) :
  URL_hostname (url bad) = None ->
  forEach (fun link index =>
             card ← createLinkCard URL_hostname link index; appendChild card)
          (bad :: after) index w
  = (Throw TypeError, w).
Proof.
  intros Hbad. cbn [forEach].
  unfold createLinkCard, mbind, Script_bind, read, throw. by rewrite Hbad.
Qed.

Lemma built_card_is_card_of (colors : list string) (domain : string) (link : Link) (index : nat) :
  URL_hostname (url link) = Some domain ->
  card_of colors link index (built_card colors domain link index).
Proof. intros Hdomain. repeat split. by exists domain. Qed.

Lemma forEach_cards (ls : list Link) : forall index markup cards0 w,
  Forall parses ls ->
  exists cards,
    forEach (fun link index =>
               card ← createLinkCard URL_hostname link index; appendChild card)
            ls index
            (set_linksContainer {| innerHTML := markup; children := cards0 |} w)
    = (Normal tt,
       set_linksContainer {| innerHTML := markup; children := cards0 ++ cards |} w) /\
    length cards = length ls /\
    forall i link card,
      ls !! i = Some link -> cards !! i = Some card ->
      card_of (CARD_COLORS w) link (index + i) card.
Proof.
  induction ls as [|l ls IH]; intros index markup cards0 w Hparse.
  - exists []. rewrite app_nil_r. split; [reflexivity|]. split; [reflexivity|].
    intros ? ? ? Hi. discriminate.
  - apply Forall_cons in Hparse as [Hl Hls]. unfold parses in Hl.
    destruct (URL_hostname (url l)) as [domain|] eqn:Hdomain; [clear Hl|congruence].
    rewrite (forEach_card_step l ls domain) by exact Hdomain.
    destruct (IH (S index) markup (cards0 ++ [built_card (CARD_COLORS w) domain l index]) w Hls)
      as (cards & Hrun & Hlen & Hcards).
    exists (built_card (CARD_COLORS w) domain l index :: cards).
    rewrite Hrun. split; [by rewrite <- app_assoc|].
    split; [simpl; by rewrite Hlen|].
    intros [|i] link card Hi Hc; simpl in Hi, Hc.
    + injection Hi as <-. injection Hc as <-. rewrite Nat.add_0_r.
      by apply built_card_is_card_of.
    + replace (index + S i) with (S index + i) by lia. by apply Hcards.
Qed.

Lemma forEach_stops (before : list Link) (bad : Link) (after : list Link) :
  forall index markup cards0 w,
  Forall parses before ->
  URL_hostname (url bad) = None ->
  exists cards,
    forEach (fun link index =>
               card ← createLinkCard URL_hostname link index; appendChild card)
            (before ++ bad :: after) index
            (set_linksContainer {| innerHTML := markup; children := cards0 |} w)
    = (Throw TypeError,
       set_linksContainer {| innerHTML := markup; children := cards0 ++ cards |} w) /\
    length cards = length before /\
    forall i link card,
      before !! i = Some link -> cards !! i = Some card ->
      card_of (CARD_COLORS w) link (index + i) card.
Proof.
  induction before as [|l ls IH]; intros index markup cards0 w Hparse Hbad.
  - exists []. rewrite app_nil_r. cbn [app].
    rewrite forEach_card_throw by exact Hbad.
    split; [reflexivity|]. split; [reflexivity|].
    intros ? ? ? Hi. discriminate.
  - apply Forall_cons in Hparse as [Hl Hls]. unfold parses in Hl.
    destruct (URL_hostname (url l)) as [domain|] eqn:Hdomain; [clear Hl|congruence].
    cbn [app]. rewrite (forEach_card_step l _ domain) by exact Hdomain.
    destruct (IH (S index) markup (cards0 ++ [built_card (CARD_COLORS w) domain l index])
                 w Hls Hbad)
      as (cards & Hrun & Hlen & Hcards).
    exists (built_card (CARD_COLORS w) domain l index :: cards).
    rewrite Hrun. split; [by rewrite <- app_assoc|].
    split; [simpl; by rewrite Hlen|].
    intros [|i] link card Hi Hc; simpl in Hi, Hc.
    + injection Hi as <-. injection Hc as <-. rewrite Nat.add_0_r.
      by apply built_card_is_card_of.
    + replace (index + S i) with (S index + i) by lia. by apply Hcards.
Qed.

Lemma renderLinks_some (w : World) (searchTerm : string) :
  filteredLinks (links w) searchTerm <> [] ->
  renderLinks URL_hostname searchTerm w
  = forEach (fun link index =>
               card ← createLinkCard URL_hostname link index; appendChild card)
            (filteredLinks (links w) searchTerm) 0
            (set_linksContainer {| innerHTML := ""; children := [] |} w).
Proof.
  intros Hsome. unfold renderLinks, set_innerHTML.
  destruct (filteredLinks (links w) searchTerm) as [|l ls] eqn:Hsel; [done|].
  unfold mbind, Script_bind, read, write. cbn [links set_linksContainer].
  rewrite Hsel. reflexivity.
Qed.

(** X2. When the filter selects some links and the URL of each of them parses,
    [renderLinks] completes normally and leaves in the emptied container one
    card per selected link, in order: the card at position [i] carries the id,
    name and URL of the [i]-th selected link, the favicon of its host, and the
    colour at position [i] modulo the length of the palette. *)
Theorem renderLinks_shows_selected_links (w : World) (searchTerm : string) :
  filteredLinks (links w) searchTerm <> [] ->
  Forall parses (filteredLinks (links w) searchTerm) ->
  exists cards,
    renderLinks URL_hostname searchTerm w
    = (Normal tt, set_linksContainer {| innerHTML := ""; children := cards |} w) /\
    length cards = length (filteredLinks (links w) searchTerm) /\
    forall i link card,
      filteredLinks (links w) searchTerm !! i = Some link ->
      cards !! i = Some card ->
      card_of (CARD_COLORS w) link i card.
Proof.
  intros Hsome Hparse.
  destruct (forEach_cards _ 0 "" [] w Hparse) as (cards & Hrun & Hlen & Hcards).
  exists cards. rewrite renderLinks_some by exact Hsome. by split.
Qed.

(** X3. When a selected link has a URL that does not parse, [renderLinks] ends
    with the TypeError of the [URL] constructor: the container holds the cards
    of the selected links before the first such link, and none after. *)
Theorem renderLinks_stops_at_unparseable_url
        (w : World) (searchTerm : string) (before : list Link) (bad : Link) (after : list Link) :
  filteredLinks (links w) searchTerm = before ++ bad :: after ->
  Forall parses before ->
  URL_hostname (url bad) = None ->
  exists cards,
    renderLinks URL_hostname searchTerm w
    = (Throw TypeError, set_linksContainer {| innerHTML := ""; children := cards |} w) /\
    length cards = length before /\
    forall i link card,
      before !! i = Some link -> cards !! i = Some card ->
      card_of (CARD_COLORS w) link i card.
Proof.
  intros Hsel Hparse Hbad.
  destruct (forEach_stops before bad after 0 "" [] w Hparse Hbad)
    as (cards & Hrun & Hlen & Hcards).
  exists cards. rewrite renderLinks_some by (rewrite Hsel; by destruct before).
  rewrite Hsel. by split.
Qed.

Lemma renderLinks_ignores_container (searchTerm : string) (c : Container) (w : World) :
  renderLinks URL_hostname searchTerm (set_linksContainer c w)
  = renderLinks URL_hostname searchTerm w.
Proof. reflexivity. Qed.

(** X4. [renderLinks] writes to the links container only, and rendering again
    with the same term gives the same completion and the same page. *)
Theorem renderLinks_is_idempotent (w : World) (searchTerm : string) :
  (exists c, exec (renderLinks URL_hostname searchTerm) w = set_linksContainer c w) /\
  renderLinks URL_hostname searchTerm (exec (renderLinks URL_hostname searchTerm) w)
  = renderLinks URL_hostname searchTerm w.
Proof.
  destruct (renderLinks_frame URL_hostname searchTerm w) as [c Hc].
  split; [by exists c|]. rewrite Hc. apply renderLinks_ignores_container.
Qed.

(** ** What the form puts in the store *)

(** A record as [handleAddLink] builds them: a name that is not empty, and a
    URL that carries a scheme and parses. *)
Definition well_formed (link : Link) : Prop :=
  name link <> "" /\
  (startsWith (url link) "http://" || startsWith (url link) "https://" = true) /\
  URL_hostname (url link) <> None.

Lemma with_scheme_has_scheme (u : string) :
  startsWith (with_scheme u) "http://" || startsWith (with_scheme u) "https://" = true.
Proof.
  rewrite with_scheme_spec.
  destruct (startsWith u "http://" || startsWith u "https://") eqn:Hu; [exact Hu|].
  apply orb_true_iff. right. apply startsWith_spec. by exists u.
Qed.

Lemma handleAddLink_adds_well_formed (w : World) :
  links (exec (handleAddLink URL_hostname) w) = links w \/
  exists link,
    well_formed link /\ links (exec (handleAddLink URL_hostname) w) = link :: links w.
Proof.
  destruct (decide (trim (linkNameInput w) = "")) as [Hname|Hname].
  { left. unfold exec. by rewrite (empty_field_outcome URL_hostname w) by auto. }
  destruct (decide (trim (linkUrlInput w) = "")) as [Hurl|Hurl].
  { left. unfold exec. by rewrite (empty_field_outcome URL_hostname w) by auto. }
  destruct (URL_hostname (with_scheme (trim (linkUrlInput w)))) as [host|] eqn:Hvalid.
  - right. eexists. split; [|apply handleAddLink_valid; [done..|congruence]].
    split; [exact Hname|]. split; [apply with_scheme_has_scheme|].
    cbn [url]. congruence.
  - left. unfold exec. by rewrite invalid_url_outcome.
Qed.

Lemma Forall_kept {A} (P Q : A -> Prop) `{!forall x, Decision (Q x)} (l : list A) :
  Forall P l -> Forall P (filter Q l).
Proof.
  rewrite !Forall_forall. intros HP x Hx.
  apply list_elem_of_filter in Hx as [_ Hx]. by apply HP.
Qed.

Lemma dispatch_keeps_well_formed (ev : Event) (w : World) :
  Forall well_formed (links w) ->
  Forall well_formed (links (exec (dispatch URL_hostname confirm ev) w)).
Proof.
  intros Hwf. destruct ev as [nameValue urlValue time|e|term|e].
  - change (exec (dispatch URL_hostname confirm (Submit nameValue urlValue time)) w)
      with (exec (handleAddLink URL_hostname) (set_clock time (set_form nameValue urlValue w))).
    destruct (handleAddLink_adds_well_formed (set_clock time (set_form nameValue urlValue w)))
      as [->|(link & Hlink & ->)]; [exact Hwf|].
    by apply Forall_cons.
  - cbn [dispatch].
    destruct (handleDeleteLink_links URL_hostname confirm e w) as [->|[linkId ->]];
      [exact Hwf|]. by apply Forall_kept.
  - pose proof (dispatch_links URL_hostname confirm (SearchInput term) w) as H.
    cbv zeta in H. destruct H as [->|[[linkId ->]|(time & nm & u & Hin & _)]].
    + exact Hwf.
    + by apply Forall_kept.
    + by apply list_elem_of_In in Hin.
  - pose proof (dispatch_links URL_hostname confirm (SwitcherClick e) w) as H.
    cbv zeta in H. destruct H as [->|[[linkId ->]|(time & nm & u & Hin & _)]].
    + exact Hwf.
    + by apply Forall_kept.
    + by apply list_elem_of_In in Hin.
Qed.

Lemma Forall_filteredLinks (P : Link -> Prop) (ls : list Link) (searchTerm : string) :
  Forall P ls -> Forall P (filteredLinks ls searchTerm).
Proof.
  intros HP. unfold filteredLinks. destruct (truthy _); [|exact HP].
  apply Forall_forall. intros l Hl. apply list_elem_of_In, filter_In in Hl as [Hl _].
  rewrite Forall_forall in HP. by apply HP, list_elem_of_In.
Qed.

Lemma renderLinks_completes (w : World) (searchTerm : string) :
  Forall parses (links w) -> fst (renderLinks URL_hostname searchTerm w) = Normal tt.
Proof.
  intros Hparse.
  destruct (filteredLinks (links w) searchTerm) as [|l ls] eqn:Hsel.
  - unfold renderLinks, set_innerHTML, mbind, Script_bind, read, write.
    cbn [links set_linksContainer]. rewrite Hsel. cbn [length Nat.eqb].
    by destruct (length (links w) =? 0)%nat.
  - rewrite renderLinks_some by (rewrite Hsel; done).
    destruct (forEach_cards (filteredLinks (links w) searchTerm) 0 "" [] w) as (cards & -> & _).
    + by apply Forall_filteredLinks.
    + reflexivity.
Qed.

(** X5. Along any run of user events, if every record of the list has a
    non-empty name and a URL that carries a scheme and parses, then so has every
    record at the end: the form adds only such records.  Every render of the
    resulting list then completes normally, whatever the search term. *)
Theorem form_keeps_the_shelf_renderable (w : World) (events : list Event) :
  Forall well_formed (links w) ->
  Forall well_formed (links (run URL_hostname confirm events w)) /\
  forall searchTerm,
    fst (renderLinks URL_hostname searchTerm (run URL_hostname confirm events w)) = Normal tt.
Proof.
  intros Hwf.
  assert (Hrun : Forall well_formed (links (run URL_hostname confirm events w))).
  { revert w Hwf. induction events as [|ev events IH]; intros w Hwf; [exact Hwf|].
    cbn [run fold_left]. by apply IH, dispatch_keeps_well_formed. }
  split; [exact Hrun|]. intros searchTerm. apply renderLinks_completes.
  eapply Forall_impl; [exact Hrun|]. by intros l (_ & _ & Hl).
Qed.

(** ** The list and its persisted copy *)

(** The list that [loadLinksFromStorage] finds in a storage when the page is
    loaded: the empty list when the slot is missing or holds the empty string,
    nothing when the text does not parse to an array of links. *)
Definition stored_links (storage : gmap string string) : option (list Link) :=
  match storage !! "savedLinks" with
  | Some text => if truthy text then JSON.parse text ≫= links_of_value else Some []
  | None => Some []
  end.

Lemma stored_links_saved (storage : gmap string string) (ls : list Link) :
  storage !! "savedLinks" = Some (JSON.stringify (value_of_links ls)) ->
  stored_links storage = Some ls.
Proof.
  intros Hslot. unfold stored_links. rewrite Hslot.
  replace (truthy (JSON.stringify (value_of_links ls))) with true by reflexivity.
  rewrite JSONFacts.parse_stringify_links. cbn [mbind option_bind].
  apply links_of_value_of_links.
Qed.

Lemma dispatch_store (ev : Event) (w : World) :
  let w' := exec (dispatch URL_hostname confirm ev) w in
  (links w' = links w /\
   localStorage w' !! "savedLinks" = localStorage w !! "savedLinks") \/
  localStorage w' !! "savedLinks" = Some (JSON.stringify (value_of_links (links w'))).
Proof.
  destruct ev as [nameValue urlValue time|e|term|e]; cbv zeta.
  - change (exec (dispatch URL_hostname confirm (Submit nameValue urlValue time)) w)
      with (exec (handleAddLink URL_hostname) (set_clock time (set_form nameValue urlValue w))).
    set (w0 := set_clock time (set_form nameValue urlValue w)).
    change (links w) with (links w0). change (localStorage w) with (localStorage w0).
    destruct (decide (trim (linkNameInput w0) = "")) as [Hname|Hname].
    { left. unfold exec. by rewrite (empty_field_outcome URL_hostname w0) by auto. }
    destruct (decide (trim (linkUrlInput w0) = "")) as [Hurl|Hurl].
    { left. unfold exec. by rewrite (empty_field_outcome URL_hostname w0) by auto. }
    destruct (URL_hostname (with_scheme (trim (linkUrlInput w0)))) as [host|] eqn:Hvalid.
    + right.
      destruct (handleAddLink_valid URL_hostname w0 Hname Hurl) as (Hl & Hs & _);
        [congruence|].
      rewrite Hs, Hl. apply lookup_insert_eq.
    + left. unfold exec. by rewrite invalid_url_outcome.
  - cbn [dispatch].
    destruct (delete_request e) as [[linkId linkName]|] eqn:Hreq.
    + destruct (confirm (delete_prompt linkName)) eqn:Hyes.
      * right.
        destruct (handleDeleteLink_confirmed URL_hostname confirm w e linkId linkName
                    Hreq Hyes) as [Hl Hs].
        rewrite Hs, Hl. apply lookup_insert_eq.
      * left. unfold handleDeleteLink. by rewrite Hreq, Hyes.
    + left. unfold handleDeleteLink. by rewrite Hreq.
  - left.
    change (exec (dispatch URL_hostname confirm (SearchInput term)) w)
      with (exec (renderLinks URL_hostname term) (set_searchInput term w)).
    destruct (renderLinks_frame URL_hostname term (set_searchInput term w)) as [c ->].
    by split.
  - left. cbn [dispatch]. unfold handleThemeChange.
    destruct (closest_theme_btn e) as [[theme|]|]; [|split; reflexivity..].
    destruct (truthy theme); [|split; reflexivity].
    rewrite applyTheme_links, applyTheme_localStorage. split; [reflexivity|].
    by rewrite lookup_insert_ne.
Qed.

Lemma run_keeps_storage_current (events : list Event) : forall w,
  stored_links (localStorage w) = Some (links w) ->
  stored_links (localStorage (run URL_hostname confirm events w))
  = Some (links (run URL_hostname confirm events w)).
Proof.
  induction events as [|ev events IH]; intros w Hsync; [exact Hsync|].
  cbn [run fold_left]. apply IH.
  destruct (dispatch_store ev w) as [[Hl Hs]|Hs].
  - rewrite Hl, <- Hsync. unfold stored_links. by rewrite Hs.
  - by apply stored_links_saved.
Qed.

Lemma loadLinksFromStorage_fresh (w : World) (ls : list Link) :
  links w = [] ->
  stored_links (localStorage w) = Some ls ->
  fst (loadLinksFromStorage w) = Normal tt /\
  exec loadLinksFromStorage w = set_links ls w.
Proof.
  intros Hfresh. unfold stored_links, loadLinksFromStorage. script.
  destruct (localStorage w !! "savedLinks") as [text|].
  - destruct (truthy text).
    + destruct (JSON.parse text) as [v|]; [|discriminate].
      cbn [mbind option_bind]. intros ->. by split.
    + intros [= <-]. split; [reflexivity|]. rewrite <- Hfresh. by destruct w.
  - intros [= <-]. split; [reflexivity|]. rewrite <- Hfresh. by destruct w.
Qed.

(** X6. If the [savedLinks] slot holds the list at the start of a run of user
    events, it holds the list at the end; a freshly loaded page that finds this
    storage loads exactly that list. *)
Theorem storage_follows_the_list (w fresh : World) (events : list Event) :
  stored_links (localStorage w) = Some (links w) ->
  links fresh = [] ->
  localStorage fresh = localStorage (run URL_hostname confirm events w) ->
  stored_links (localStorage (run URL_hostname confirm events w))
  = Some (links (run URL_hostname confirm events w)) /\
  loadLinksFromStorage fresh
  = (Normal tt, set_links (links (run URL_hostname confirm events w)) fresh).
Proof.
  intros Hsync Hfresh Hshared.
  pose proof (run_keeps_storage_current events w Hsync) as Hrun.
  split; [exact Hrun|]. rewrite <- Hshared in Hrun.
  destruct (loadLinksFromStorage_fresh fresh _ Hfresh Hrun) as [Hok Hw].
  unfold exec in Hw. destruct (loadLinksFromStorage fresh) as [r w']. simpl in *.
  by subst.
Qed.

(** ** Start-up *)



Lemma renderLinks_of_empty_shelf (w : World) (searchTerm : string) :
  links w = [] ->
  renderLinks URL_hostname searchTerm w
  = (Normal tt,
     set_linksContainer {| innerHTML := empty_shelf_markup; children := [] |} w).
Proof.
  intros Hempty. unfold renderLinks, set_innerHTML, mbind, Script_bind, read, write.
  cbn [links set_linksContainer]. rewrite Hempty.
  replace (filteredLinks [] searchTerm) with (@nil Link)
    by (unfold filteredLinks; by destruct (truthy _)).
  reflexivity.
Qed.

Lemma loadTheme_world (w : World) :
  exists body storage buttons,
    loadTheme w
    = (Normal tt,
       set_themeButtons buttons (set_localStorage storage (set_body_classList body w))) /\
    storage !! "savedLinks" = localStorage w !! "savedLinks".
Proof.
  unfold loadTheme, mbind, Script_bind, read.
  do 3 eexists. split; [apply applyTheme_world|].
  by rewrite lookup_insert_ne.
Qed.


(** X8. On a freshly loaded page [init] leaves in [links] the list that the
    storage holds, and a permutation of the palette; it completes normally when
    the URL of every stored link parses; with no stored link the container
    shows the shelf-is-empty message. *)
Theorem init_restores_the_shelf (draw : nat -> nat) (w : World) (ls : list Link) :
  links w = [] ->
  stored_links (localStorage w) = Some ls ->
  let w' := exec (init URL_hostname draw) w in
  links w' = ls /\
  CARD_COLORS w' ≡ₚ CARD_COLORS w /\
  (Forall parses ls -> fst (init URL_hostname draw w) = Normal tt) /\
  (ls = [] ->
   linksContainer w' = {| innerHTML := empty_shelf_markup; children := [] |}).
Proof.
  intros Hfresh Hstored w'. subst w'.
  destruct (loadTheme_world w) as (body & storage & buttons & Htheme & Hstorage).
  set (w1 := set_themeButtons buttons (set_localStorage storage (set_body_classList body w)))
    in *.
  assert (Hstored1 : stored_links (localStorage w1) = Some ls).
  { rewrite <- Hstored. unfold stored_links. cbn [localStorage w1 set_themeButtons
      set_localStorage]. by rewrite Hstorage. }
  destruct (loadLinksFromStorage_fresh w1 ls Hfresh Hstored1) as [Hok Hload].
  set (w2 := set_CARD_COLORS (shuffleArray draw (CARD_COLORS w)) (set_links ls w1)).
  assert (Hinit : init URL_hostname draw w = renderLinks URL_hostname "" w2).
  { unfold init, mbind, Script_bind. rewrite Htheme.
    unfold exec in Hload. destruct (loadLinksFromStorage w1) as [r w1'].
    simpl in Hok, Hload. subst r w1'. reflexivity. }
  unfold exec. rewrite Hinit.
  destruct (renderLinks_frame URL_hostname "" w2) as [c Hc]. unfold exec in Hc.
  split; [by rewrite Hc|].
  split; [rewrite Hc; apply shuffle_from_Permutation|].
  split.
  - intros Hparse. by apply renderLinks_completes.
  - intros ->. by rewrite (renderLinks_of_empty_shelf w2 "").
Qed.

(** ** The form after a submit *)

Lemma first_unparseable (ls : list Link) :
  ~ Forall parses ls ->
  exists before bad after,
    ls = before ++ bad :: after /\ Forall parses before /\ URL_hostname (url bad) = None.
Proof.
  induction ls as [|l ls IH]; intros Hnot.
  - destruct Hnot. constructor.
  - destruct (URL_hostname (url l)) as [domain|] eqn:Hl.
    + destruct IH as (before & bad & after & -> & Hbefore & Hbad).
      { intros Hls. apply Hnot. constructor; [|exact Hls]. unfold parses. congruence. }
      exists (l :: before), bad, after. split; [reflexivity|].
      split; [|exact Hbad]. constructor; [|exact Hbefore]. unfold parses. congruence.
    + exists [], l, ls. split; [reflexivity|]. split; [constructor|exact Hl].
Qed.

Lemma renderLinks_throws (w : World) (searchTerm : string) :
  ~ Forall parses (filteredLinks (links w) searchTerm) ->
  fst (renderLinks URL_hostname searchTerm w) = Throw TypeError.
Proof.
  intros Hnot.
  destruct (first_unparseable _ Hnot) as (before & bad & after & Hsel & Hbefore & Hbad).
  destruct (forEach_stops before bad after 0 "" [] w Hbefore Hbad) as (cards & Hrun & _).
  rewrite renderLinks_some by (rewrite Hsel; by destruct before).
  rewrite Hsel, Hrun. reflexivity.
Qed.

Lemma handleAddLink_valid_unfold (w : World) :
  trim (linkNameInput w) <> "" ->
  trim (linkUrlInput w) <> "" ->
  URL_hostname (with_scheme (trim (linkUrlInput w))) <> None ->
  let newLink := {| id := "link-" +:+ pretty (clock w);
                    name := trim (linkNameInput w);
                    url := with_scheme (trim (linkUrlInput w)) |} in
  let saved :=
    set_localStorage
      (<["savedLinks" := JSON.stringify (value_of_links (newLink :: links w))]>
         (localStorage w))
      (set_links (newLink :: links w) w) in
  handleAddLink URL_hostname w
  = match renderLinks URL_hostname (searchInput w) saved with
    | (Normal _, w') =>
        (Normal tt, set_activeElement (Some "link-name") (set_form "" "" w'))
    | (Throw e, w') => (Throw e, w')
    end.
Proof.
  intros Hname Hurl Hvalid newLink saved.
  apply truthy_spec in Hname, Hurl.
  unfold handleAddLink, saveLinksToStorage, mbind, Script_bind, read, write.
  rewrite Hname, Hurl. cbn [negb orb].
  destruct (URL_hostname _) as [host|]; [clear Hvalid|congruence].
  reflexivity.
Qed.

(** X14. When a submit passes both checks and the URL of every record already
    in the list parses, [handleAddLink] completes normally, both fields of the
    form are empty afterwards, the focus is on the name field, and the search
    bar is untouched. *)
Theorem successful_add_clears_the_form (w : World) :
  trim (linkNameInput w) <> "" ->
  trim (linkUrlInput w) <> "" ->
  URL_hostname (with_scheme (trim (linkUrlInput w))) <> None ->
  Forall parses (links w) ->
  let w' := exec (handleAddLink URL_hostname) w in
  fst (handleAddLink URL_hostname w) = Normal tt /\
  linkNameInput w' = "" /\
  linkUrlInput w' = "" /\
  activeElement w' = Some "link-name" /\
  searchInput w' = searchInput w.
Proof.
  intros Hname Hurl Hvalid Hparse w'. subst w'. unfold exec.
  rewrite (handleAddLink_valid_unfold w Hname Hurl Hvalid). cbv zeta.
  set (saved := set_localStorage _ _).
  pose proof (renderLinks_completes saved (searchInput w)) as Hok.
  destruct (renderLinks_frame URL_hostname (searchInput w) saved) as [c Hc].
  unfold exec in Hc.
  destruct (renderLinks URL_hostname (searchInput w) saved) as [r w1].
  cbn [fst snd] in *. subst w1. rewrite Hok; [by repeat split|].
  constructor; [exact Hvalid|exact Hparse].
Qed.

(** X15. When a submit passes both checks but a link that the current search
    selects has a URL that does not parse, [handleAddLink] ends with the
    TypeError of the render: the record is added all the same, and the form
    keeps what the user typed. *)
Theorem add_that_fails_to_render_keeps_the_form (w : World) :
  trim (linkNameInput w) <> "" ->
  trim (linkUrlInput w) <> "" ->
  URL_hostname (with_scheme (trim (linkUrlInput w))) <> None ->
  ~ Forall parses (filteredLinks (links w) (searchInput w)) ->
  let w' := exec (handleAddLink URL_hostname) w in
  fst (handleAddLink URL_hostname w) = Throw TypeError /\
  linkNameInput w' = linkNameInput w /\
  linkUrlInput w' = linkUrlInput w /\
  activeElement w' = activeElement w /\
  length (links w') = S (length (links w)).
Proof.
  intros Hname Hurl Hvalid Hbad w'. subst w'. unfold exec.
  rewrite (handleAddLink_valid_unfold w Hname Hurl Hvalid). cbv zeta.
  set (newLink := {| id := _; name := _; url := _ |}).
  set (saved := set_localStorage _ _).
  assert (Hthrow : fst (renderLinks URL_hostname (searchInput w) saved) = Throw TypeError).
  { apply renderLinks_throws. cbn [links saved set_localStorage set_links].
    intros Hall. apply Hbad. unfold filteredLinks in *.
    destruct (truthy _); [|by apply Forall_cons in Hall as [_ ?]].
    cbn [List.filter] in Hall. destruct (includes _ _); [|exact Hall].
    by apply Forall_cons in Hall as [_ ?]. }
  destruct (renderLinks_frame URL_hostname (searchInput w) saved) as [c Hc].
  unfold exec in Hc.
  destruct (renderLinks URL_hostname (searchInput w) saved) as [r w1].
  cbn [fst snd] in *. subst w1 r. by repeat split.
Qed.

(** ** How records leave the list *)

(** X16. A record leaves the list only through a click that designates its id
    for deletion and that the user confirms: no submit, search, theme click,
    declined or misplaced click removes one. *)
Theorem records_leave_only_by_confirmed_delete (ev : Event) (w : World) (link : Link) :
  link ∈ links w ->
  link ∉ links (exec (dispatch URL_hostname confirm ev) w) ->
  exists e linkName,
    ev = ContainerClick e /\
    delete_request e = Some (id link, linkName) /\
    confirm (delete_prompt linkName) = true.
Proof.
  intros Hin Hout.
  destruct ev as [nameValue urlValue time|e|term|e].
  - exfalso. apply Hout.
    change (exec (dispatch URL_hostname confirm (Submit nameValue urlValue time)) w)
      with (exec (handleAddLink URL_hostname) (set_clock time (set_form nameValue urlValue w))).
    destruct (handleAddLink_links URL_hostname
                (set_clock time (set_form nameValue urlValue w))) as [->|(nm & u & ->)].
    + exact Hin.
    + by apply list_elem_of_further.
  - cbn [dispatch] in Hout.
    destruct (delete_request e) as [[linkId linkName]|] eqn:Hreq.
    + destruct (confirm (delete_prompt linkName)) eqn:Hyes.
      * destruct (handleDeleteLink_confirmed URL_hostname confirm w e linkId linkName
                    Hreq Hyes) as [Hl _].
        rewrite Hl in Hout.
        destruct (decide (id link = linkId)) as [<-|Hne].
        -- by exists e, linkName.
        -- exfalso. apply Hout, list_elem_of_filter. by split.
      * exfalso. apply Hout. unfold handleDeleteLink. by rewrite Hreq, Hyes.
    + exfalso. apply Hout. unfold handleDeleteLink. by rewrite Hreq.
  - exfalso. apply Hout.
    change (exec (dispatch URL_hostname confirm (SearchInput term)) w)
      with (exec (renderLinks URL_hostname term) (set_searchInput term w)).
    by rewrite renderLinks_links.
  - exfalso. apply Hout. cbn [dispatch]. unfold handleThemeChange.
    destruct (closest_theme_btn e) as [[theme|]|]; [|exact Hin..].
    destruct (truthy theme); [|exact Hin]. by rewrite applyTheme_links.
Qed.

End MoreProperties.

(** ** Searching *)

Lemma includes_empty (s : string) : includes s "" = true.
Proof. by destruct s. Qed.





Lemma filteredLinks_as_filter (ls : list Link) (searchTerm : string) :
  filteredLinks ls searchTerm
  = List.filter (fun link => includes (toLowerCase (name link))
                                      (toLowerCase (trim searchTerm))) ls.
Proof.
  unfold filteredLinks. destruct (truthy _) eqn:Hterm; [reflexivity|].
  apply truthy_false in Hterm. rewrite Hterm.
  induction ls as [|l ls IH]; [reflexivity|].
  cbn [List.filter]. by rewrite includes_empty, <- IH.
Qed.



(** X18. The filter keeps records of the list in their order and adds none,
    and filtering its result again with the same term changes nothing. *)
Theorem filteredLinks_is_stable (ls : list Link) (searchTerm : string) :
  filteredLinks ls searchTerm `sublist_of` ls /\
  filteredLinks (filteredLinks ls searchTerm) searchTerm = filteredLinks ls searchTerm.
Proof.
  rewrite !filteredLinks_as_filter. split.
  - induction ls as [|l ls IH]; [constructor|].
    cbn [List.filter]. destruct (includes _ _); by constructor.
  - induction ls as [|l ls IH]; [reflexivity|].
    cbn [List.filter]. destruct (includes _ _) eqn:Hl; [|exact IH].
    cbn [List.filter]. by rewrite Hl, IH.
Qed.

(** ** The URL of a record *)

(** X19. The normalised URL always starts with [http://] or [https://], and
    normalising it again changes nothing. *)
Theorem with_scheme_is_idempotent (u : string) :
  (startsWith (with_scheme u) "http://" || startsWith (with_scheme u) "https://" = true) /\
  with_scheme (with_scheme u) = with_scheme u.
Proof.
  pose proof (with_scheme_has_scheme u) as H. split; [exact H|].
  rewrite (with_scheme_spec (with_scheme u)). by rewrite H.
Qed.

(** ** The favicon *)

Lemma favicon_error_twice (domain : string) :
  favicon_error domain (favicon_error domain (createFavicon domain))
  = {| src := fallbackIconDataUrl;
       dataset_fallbackAttempted := Some "true";
       onerror := false |}.
Proof. reflexivity. Qed.

(** X20. The favicon's source after a number of load failures: the first
    service before any, the second service after one, the embedded icon after
    two or more; from the second failure on the handler is removed, so the
    source no longer changes. *)
Theorem favicon_fallback_chain (domain : string) (failures : nat) :
  let favicon := Nat.iter failures (favicon_error domain) (createFavicon domain) in
  src favicon
  = match failures with
    | 0 => "https://www.google.com/s2/favicons?sz=64&domain_url=" +:+ domain
    | 1 => "https://icons.duckduckgo.com/ip3/" +:+ domain +:+ ".ico"
    | _ => fallbackIconDataUrl
    end /\
  onerror favicon = (failures <? 2)%nat.
Proof.
  cbv zeta. destruct failures as [|[|n]]; [by split..|].
  assert (H : Nat.iter (S (S n)) (favicon_error domain) (createFavicon domain)
              = {| src := fallbackIconDataUrl;
                   dataset_fallbackAttempted := Some "true";
                   onerror := false |}).
  { induction n as [|n IH]; [apply favicon_error_twice|].
    rewrite Nat.iter_succ, IH. reflexivity. }
  rewrite H. by split.
Qed.
(** ** The further theorems at concrete pages *)

(** A record whose URL does not parse, as a tampered storage can hold one. *)
Definition broken : Link := {| id := "link-1"; name := "Git mirror"; url := "mirror" |}.

Ltac all_parse :=
  vm_compute; repeat (constructor; [discriminate|]); constructor.

Lemma shuffleArray_permutes_witness :
  shuffleArray (fun _ => 0) (CARD_COLORS initial_world) ≡ₚ CARD_COLORS initial_world.
Proof.
  exact (proj1 (shuffleArray_permutes (fun _ => 0) (CARD_COLORS initial_world)
                  (fun i => Nat.le_0_l i))).
Defined.

Lemma renderLinks_shows_selected_links_witness :
  exists cards,
    renderLinks plain_URL_hostname "git" (set_links [github; gitlab] initial_world)
    = (Normal tt,
       set_linksContainer {| innerHTML := ""; children := cards |}
                          (set_links [github; gitlab] initial_world)) /\
    length cards = 2.
Proof.
  destruct (renderLinks_shows_selected_links plain_URL_hostname
              (set_links [github; gitlab] initial_world) "git")
    as (cards & Hrun & Hlen & _); [vm_compute; discriminate|all_parse|].
  exists cards. split; [exact Hrun|exact Hlen].
Defined.

Lemma renderLinks_stops_at_unparseable_url_witness :
  exists cards,
    renderLinks plain_URL_hostname "git" (set_links [github; broken; gitlab] initial_world)
    = (Throw TypeError,
       set_linksContainer {| innerHTML := ""; children := cards |}
                          (set_links [github; broken; gitlab] initial_world)) /\
    length cards = 1.
Proof.
  destruct (renderLinks_stops_at_unparseable_url plain_URL_hostname
              (set_links [github; broken; gitlab] initial_world) "git"
              [github] broken [gitlab])
    as (cards & Hrun & Hlen & _); [reflexivity|all_parse|reflexivity|].
  exists cards. split; [exact Hrun|exact Hlen].
Defined.

Lemma form_keeps_the_shelf_renderable_witness :
  fst (renderLinks plain_URL_hostname "git"
         (run plain_URL_hostname always_confirm
              [Submit "GitHub" "github.com" 1000; SearchInput "git";
               ContainerClick (delete_click "link-1000" "GitHub")]
              initial_world))
  = Normal tt.
Proof.
  refine (proj2 (form_keeps_the_shelf_renderable plain_URL_hostname always_confirm
                   initial_world _ _) "git").
  apply Forall_nil_2.
Defined.

(** A session: two links are added and the first is deleted again. *)
Definition session : list Event :=
  [ Submit "GitHub" "github.com" 1000;
    Submit "gitlab" "gitlab.com" 1001;
    ContainerClick (delete_click "link-1000" "GitHub") ].

(** A freshly loaded page that finds the storage the session left. *)
Definition reloaded : World :=
  set_localStorage
    (localStorage (run plain_URL_hostname always_confirm session initial_world))
    initial_world.

Lemma storage_follows_the_list_witness :
  loadLinksFromStorage reloaded
  = (Normal tt,
     set_links (links (run plain_URL_hostname always_confirm session initial_world))
               reloaded).
Proof.
  refine (proj2 (storage_follows_the_list plain_URL_hostname always_confirm
                   initial_world reloaded session _ _ _));
    vm_compute; reflexivity.
Defined.


Lemma init_restores_the_shelf_witness :
  links (exec (init plain_URL_hostname (fun _ => 0))
              (exec (saveLinksToStorage [github; gitlab]) initial_world))
  = [github; gitlab].
Proof.
  refine (proj1 (init_restores_the_shelf plain_URL_hostname (fun _ => 0)
                   (exec (saveLinksToStorage [github; gitlab]) initial_world)
                   [github; gitlab] _ _)).
  - reflexivity.
  - vm_compute. reflexivity.
Defined.

Definition theme_click (theme : string) : ClickEvent :=
  {| target_classList := ["theme-btn"];
     closest_link_card := None;
     closest_theme_btn := Some (Some theme) |}.

Lemma theme_choice_survives_reload_witness :
  loadTheme (exec (handleThemeChange (theme_click "sepia")) initial_world)
  = (Normal tt, exec (handleThemeChange (theme_click "sepia")) initial_world).
Proof.
  refine (proj2 (theme_choice_survives_reload initial_world (theme_click "sepia") "sepia"
                   _ _)); [reflexivity|discriminate].
Defined.

Lemma successful_add_clears_the_form_witness :
  linkNameInput (exec (handleAddLink plain_URL_hostname) (filled_form " GitHub " "github.com"))
  = "".
Proof.
  refine (proj1 (proj2 (successful_add_clears_the_form plain_URL_hostname
                          (filled_form " GitHub " "github.com") _ _ _ _)));
    [vm_compute; discriminate..|all_parse].
Defined.

Lemma add_that_fails_to_render_keeps_the_form_witness :
  fst (handleAddLink plain_URL_hostname
         (set_form "GitHub" "github.com" (set_links [broken] initial_world)))
  = Throw TypeError.
Proof.
  refine (proj1 (add_that_fails_to_render_keeps_the_form plain_URL_hostname
                   (set_form "GitHub" "github.com" (set_links [broken] initial_world))
                   _ _ _ _)); [vm_compute; discriminate..|].
  intros Hall. vm_compute in Hall. apply Forall_cons in Hall as [Hbroken _].
  by apply Hbroken.
Defined.

Lemma records_leave_only_by_confirmed_delete_witness :
  exists e linkName,
    ContainerClick (delete_click "link-2" "gitlab") = ContainerClick e /\
    delete_request e = Some (id gitlab, linkName) /\
    always_confirm (delete_prompt linkName) = true.
Proof.
  apply (records_leave_only_by_confirmed_delete plain_URL_hostname always_confirm
           (ContainerClick (delete_click "link-2" "gitlab"))
           (set_links [github; gitlab] initial_world) gitlab).
  - apply list_elem_of_further, list_elem_of_here.
  - intros Hin. vm_compute in Hin. apply list_elem_of_In in Hin.
    destruct Hin as [Heq|[]]. discriminate.
Defined.
